(** * bandmap: RBN spot band map — verification of the ingest/store/render core

    Shallow embedding of [bandmap/__main__.py] and [bandmap/lib/database.py].

    Conventions of the embedding.
    - A Python [str] is a Rocq [string]; the development covers ASCII text
      (what the RBN feed, the roster page and flrig deliver).
    - A Python [float] is a [pyfloat]: a finite value carried as an exact
      rational, or one of inf, -inf, nan.  Rounding of finite values to 53
      bits is not modelled.
    - A call that may raise is a [result]: [Ok v] or [Raise e] with the
      class of the exception; [except C] catches [e] when [C] is in the
      method resolution order of [e].
    - SQLite's [datetime('now')] is a count of seconds [Z]; the text format
      'YYYY-MM-DD HH:MM:SS' orders as these counts do. *)

From Stdlib Require Import ZArith QArith Qabs Lia Lqa Ascii String List.
From stdpp Require Import base option list sorting strings gmap.
Import ListNotations.

Local Open Scope string_scope.
Local Open Scope list_scope.
Local Open Scope Z_scope.

(** ** Python exceptions and results *)

Module Py.

Inductive exn : Type :=
| Exception
| ArithmeticError | OverflowError
| LookupError | IndexError
| TypeError
| ValueError | UnicodeError
| OSError | ConnectionError | ConnectionRefusedError | TimeoutError
| XmlRpcError | XmlRpcFault | XmlRpcProtocolError.

#[global] Instance exn_eq_dec : EqDecision exn.
Proof. solve_decision. Defined.

(** Base class of each exception class, as in CPython's [builtins] and
    [xmlrpc.client]. *)
Definition base (e : exn) : option exn :=
  match e with
  | Exception => None
  | ArithmeticError | LookupError | TypeError | ValueError | OSError
  | XmlRpcError => Some Exception
  | OverflowError => Some ArithmeticError
  | IndexError => Some LookupError
  | UnicodeError => Some ValueError
  | ConnectionError | TimeoutError => Some OSError
  | ConnectionRefusedError => Some ConnectionError
  | XmlRpcFault | XmlRpcProtocolError => Some XmlRpcError
  end.

(** [isinstance e c]: the class [e] is [c] or derives from it.  The
    hierarchy above is at most four levels deep. *)
Fixpoint derives (fuel : nat) (e c : exn) : bool :=
  bool_decide (e = c) ||
  match fuel, base e with
  | S n, Some b => derives n b c
  | _, _ => false
  end.

Definition isinstance (e c : exn) : bool := derives 4 e c.

Inductive result (A : Type) : Type :=
| Ok (a : A)
| Raise (e : exn).
Arguments Ok {A} a.
Arguments Raise {A} e.

Definition bind {A B} (r : result A) (k : A -> result B) : result B :=
  match r with
  | Ok a => k a
  | Raise e => Raise e
  end.

(** [try: body  except C1: h  except C2: h ...] with one handler value
    for all the listed classes. *)
Definition try_except {A} (body : result A) (classes : list exn) (handler : A)
  : result A :=
  match body with
  | Ok a => Ok a
  | Raise e => if existsb (isinstance e) classes then Ok handler else Raise e
  end.

#[global] Instance result_ret : MRet result := @Ok.
#[global] Instance result_bind : MBind result :=
  fun A B k r => bind r k.

End Py.

Import Py.

(** ** Python floats *)

Inductive pyfloat : Type :=
| Fin (q : Q)
| PosInf
| NegInf
| NaN.

(** Magnitudes from [2^1024 - 2^970] on round to an infinity. *)
Definition double_overflow : Z := 2 ^ 1024 - 2 ^ 970.

Definition overflows (q : Q) : bool :=
  Qle_bool (inject_Z double_overflow) (Qabs q).
Arguments overflows : simpl never.

(** [f < g] and [f > g] on floats; every comparison with nan is false. *)
Definition float_ltb (f g : pyfloat) : bool :=
  match f, g with
  | NaN, _ | _, NaN => false
  | Fin a, Fin b => negb (Qle_bool b a)
  | NegInf, NegInf => false
  | NegInf, _ => true
  | _, PosInf => match f with PosInf => false | _ => true end
  | _, _ => false
  end.

Definition float_gtb (f g : pyfloat) : bool := float_ltb g f.

(** [f - g]. *)
Definition float_sub (f g : pyfloat) : pyfloat :=
  match f, g with
  | NaN, _ | _, NaN => NaN
  | Fin a, Fin b => Fin (a - b)
  | Fin _, PosInf => NegInf
  | Fin _, NegInf => PosInf
  | PosInf, PosInf | NegInf, NegInf => NaN
  | PosInf, _ => PosInf
  | NegInf, _ => NegInf
  end.

(** [f / 1000] and the like: division by a positive integer constant. *)
Definition float_div_pos (f : pyfloat) (d : positive) : pyfloat :=
  match f with
  | Fin a => Fin (a / inject_Z (Z.pos d))
  | other => other
  end.

Definition of_Z (z : Z) : pyfloat := Fin (inject_Z z).

(** Truncation toward zero of a rational. *)
Definition Qtrunc (q : Q) : Z := Z.quot (Qnum q) (Z.pos (Qden q)).

(** [int(f)]: truncation toward zero; [OverflowError] on an infinity and
    [ValueError] on nan. *)
Definition py_int (f : pyfloat) : result Z :=
  match f with
  | Fin q => Ok (Qtrunc q)
  | PosInf | NegInf => Raise OverflowError
  | NaN => Raise ValueError
  end.

(** ** [float(x)] *)

(** The objects the program hands to [float]: [None], an [int], a [float],
    a [str], and [PyObject] for one with no numeric conversion (a list, a
    dict, ...). *)
Inductive pyval : Type :=
| PyNone
| PyInt (z : Z)
| PyFloat (f : pyfloat)
| PyStr (s : string)
| PyObject.

(** [str.strip], [str.lower], [str.upper] and [ord] on ASCII text. *)
Module Text.

(** [str.isspace] on ASCII: TAB..CR, FS..US and the blank. *)
Definition is_space (c : ascii) : bool :=
  let n := nat_of_ascii c in
  ((9 <=? n)%nat && (n <=? 13)%nat) || ((28 <=? n)%nat && (n <=? 32)%nat).

Fixpoint lstrip (s : list ascii) : list ascii :=
  match s with
  | c :: s' => if is_space c then lstrip s' else s
  | [] => []
  end.

Definition strip (s : list ascii) : list ascii :=
  rev (lstrip (rev (lstrip s))).

Definition lower (c : ascii) : ascii :=
  let n := nat_of_ascii c in
  if (65 <=? n)%nat && (n <=? 90)%nat then ascii_of_nat (n + 32) else c.

Definition upper (c : ascii) : ascii :=
  let n := nat_of_ascii c in
  if (97 <=? n)%nat && (n <=? 122)%nat then ascii_of_nat (n - 32) else c.

Definition ord (c : ascii) : Z := Z.of_nat (nat_of_ascii c).

(** [s[i]]: [IndexError] past the end. *)
Definition item (s : list ascii) (i : nat) : result ascii :=
  match s !! i with
  | Some c => Ok c
  | None => Raise IndexError
  end.

End Text.

(** The grammar of [float] on a string (language reference, built-in
    function [float]). *)
Module FloatText.

Import Text.

Definition is_digit (c : ascii) : bool :=
  let n := nat_of_ascii c in (48 <=? n)%nat && (n <=? 57)%nat.

Definition digit (c : ascii) : Z := Z.of_nat (nat_of_ascii c) - 48.

(** The rest of a [digitpart]: digits, each optionally preceded by one
    underscore.  Returns the accumulated value, the number of digits read
    and the unread text. *)
Fixpoint digits_rest (v : Z) (k : nat) (s : list ascii) : Z * nat * list ascii :=
  match s with
  | c :: s' =>
      if is_digit c then digits_rest (10 * v + digit c) (S k) s'
      else if Ascii.eqb c "_" then
        match s' with
        | d :: s'' =>
            if is_digit d then digits_rest (10 * v + digit d) (S k) s''
            else (v, k, s)
        | [] => (v, k, s)
        end
      else (v, k, s)
  | [] => (v, k, [])
  end.

(** [digitpart ::= digit (["_"] digit)*], continuing the value [v]. *)
Definition digitpart (v : Z) (s : list ascii) : option (Z * nat * list ascii) :=
  match s with
  | c :: _ => if is_digit c then Some (digits_rest v 0 s) else None
  | [] => None
  end.

Definition sign (s : list ascii) : bool * list ascii :=
  match s with
  | c :: s' =>
      if Ascii.eqb c "-" then (true, s')
      else if Ascii.eqb c "+" then (false, s')
      else (false, s)
  | [] => (false, [])
  end.

(** [number ::= [digitpart] "." digitpart | digitpart ["."]]: the
    mantissa as an integer and the count of fraction digits. *)
Definition number (s : list ascii) : option (Z * nat * list ascii) :=
  match digitpart 0 s with
  | Some (i, _, r) =>
      match r with
      | c :: r' =>
          if Ascii.eqb c "." then
            match digitpart i r' with
            | Some (m, k, r'') => Some (m, k, r'')
            | None => Some (i, 0%nat, r')
            end
          else Some (i, 0%nat, r)
      | [] => Some (i, 0%nat, [])
      end
  | None =>
      match s with
      | c :: r' => if Ascii.eqb c "." then digitpart 0 r' else None
      | [] => None
      end
  end.

(** [exponent ::= ("e" | "E") [sign] digitpart], absent means 0. *)
Definition exponent (s : list ascii) : option (Z * list ascii) :=
  match s with
  | c :: r =>
      if Ascii.eqb (lower c) "e" then
        let '(neg, r') := sign r in
        match digitpart 0 r' with
        | Some (e, _, r'') => Some (if neg then - e else e, r'')
        | None => None
        end
      else Some (0, s)
  | [] => Some (0, [])
  end.

Definition finite (q : Q) : pyfloat :=
  if overflows q then (if Qle_bool 0 q then PosInf else NegInf) else Fin q.

Definition negate (f : pyfloat) : pyfloat :=
  match f with
  | Fin q => Fin (- q)
  | PosInf => NegInf
  | NegInf => PosInf
  | NaN => NaN
  end.

Definition absfloatvalue (s : list ascii) : option pyfloat :=
  let word := string_of_list_ascii (map lower s) in
  if String.eqb word "inf" || String.eqb word "infinity" then Some PosInf
  else if String.eqb word "nan" then Some NaN
  else
    match number s with
    | Some (m, k, r) =>
        match exponent r with
        | Some (e, []) =>
            Some (finite (inject_Z m * Qpower (inject_Z 10) (e - Z.of_nat k)))
        | _ => None
        end
    | None => None
    end.

(** [floatvalue ::= [sign] absfloatvalue] between optional blanks. *)
Definition parse (s : string) : option pyfloat :=
  let '(neg, r) := sign (strip (list_ascii_of_string s)) in
  match absfloatvalue r with
  | Some f => Some (if neg then negate f else f)
  | None => None
  end.

End FloatText.

(** [float(x)]. *)
Definition py_float (x : pyval) : result pyfloat :=
  match x with
  | PyNone | PyObject => Raise TypeError
  | PyInt z =>
      if overflows (inject_Z z) then Raise OverflowError else Ok (of_Z z)
  | PyFloat f => Ok f
  | PyStr s =>
      match FloatText.parse s with
      | Some f => Ok f
      | None => Raise ValueError
      end
  end.

(** ** FrequencyClassifier: [getband] and [inband] *)

(** The chain of tests of [getband] on [frequency], in Hz. *)
Definition band_of_hz (frequency : Z) : string :=
  if (1800000 <? frequency) && (frequency <? 2000000) then "160"
  else if (3500000 <? frequency) && (frequency <? 4000000) then "80"
  else if (5330000 <? frequency) && (frequency <? 5406000) then "60"
  else if (7000000 <? frequency) && (frequency <? 7300000) then "40"
  else if (10100000 <? frequency) && (frequency <? 10150000) then "30"
  else if (14000000 <? frequency) && (frequency <? 14350000) then "20"
  else if (18068000 <? frequency) && (frequency <? 18168000) then "17"
  else if (21000000 <? frequency) && (frequency <? 21450000) then "15"
  else if (24890000 <? frequency) && (frequency <? 24990000) then "12"
  else if (28000000 <? frequency) && (frequency <? 29700000) then "10"
  else if (50000000 <? frequency) && (frequency <? 54000000) then "6"
  else if (144000000 <? frequency) && (frequency <? 148000000) then "2"
  else "0".

(** [int(float(freq))]. *)
Definition int_float (freq : pyval) : result Z :=
  f ← py_float freq; py_int f.

(** [getband(freq)]: [frequency = int(float(freq)) * 1000] under
    [try], replaced by [0.0] on [ValueError] and [TypeError]. *)
Definition getband (freq : pyval) : result string :=
  frequency ← try_except
                (i ← int_float freq; Ok (i * 1000))
                [ValueError; TypeError] 0;
  Ok (band_of_hz frequency).

(** [freq > lo and freq < hi] on a float and two integer literals. *)
Definition between (lo hi : Z) (freq : pyfloat) : bool :=
  float_gtb freq (of_Z lo) && float_ltb freq (of_Z hi).

(** [inband(freq)]: [in_band] starts [False] and each test that holds sets
    it. *)
Definition inband (freq : pyfloat) : bool :=
  let in_band := false in
  let in_band := if between 1800 2000 freq then true else in_band in
  let in_band := if between 3525 3600 freq then true else in_band in
  let in_band := if between 3800 4000 freq then true else in_band in
  let in_band := if between 7025 7125 freq then true else in_band in
  let in_band := if between 7175 7300 freq then true else in_band in
  let in_band := if between 10100 10150 freq then true else in_band in
  let in_band := if between 14025 14150 freq then true else in_band in
  let in_band := if between 14225 14350 freq then true else in_band in
  let in_band := if between 18068 18168 freq then true else in_band in
  let in_band := if between 21025 21200 freq then true else in_band in
  let in_band := if between 21275 21450 freq then true else in_band in
  let in_band := if between 24890 24990 freq then true else in_band in
  let in_band := if between 28000 29700 freq then true else in_band in
  let in_band := if between 50000 54000 freq then true else in_band in
  in_band.

(** ** GeoFilter: [gridtolatlon] *)

(** [gridtolatlon(maiden)], returning [(lat, lon)].  The guard is
    [not 8 >= n >= 2 and n % 2 == 0], in which [not] applies to the
    chained comparison only. *)
Definition gridtolatlon (maiden : string) : result (Q * Q) :=
  let maiden := map Text.upper (Text.strip (list_ascii_of_string maiden)) in
  let maidenhead_resolution := Z.of_nat (length maiden) in
  if negb ((8 >=? maidenhead_resolution) && (maidenhead_resolution >=? 2))
     && (maidenhead_resolution mod 2 =? 0)
  then Ok (0%Q, 0%Q)
  else
    m0 ← Text.item maiden 0;
    let lon := inject_Z ((Text.ord m0 - 65) * 20 - 180) in
    m1 ← Text.item maiden 1;
    let lat := inject_Z ((Text.ord m1 - 65) * 10 - 90) in
    '(lat, lon) ←
      (if maidenhead_resolution >=? 4 then
         m2 ← Text.item maiden 2;
         let lon := (lon + inject_Z ((Text.ord m2 - 48) * 2))%Q in
         m3 ← Text.item maiden 3;
         let lat := (lat + inject_Z (Text.ord m3 - 48))%Q in
         Ok (lat, lon)
       else Ok (lat, lon));
    '(lat, lon) ←
      (if maidenhead_resolution >=? 6 then
         m4 ← Text.item maiden 4;
         let lon := (lon + (inject_Z (Text.ord m4 - 65) / 12 + 1 / 24))%Q in
         m5 ← Text.item maiden 5;
         let lat := (lat + (inject_Z (Text.ord m5 - 65) / 24 + 1 / 48))%Q in
         Ok (lat, lon)
       else Ok (lat, lon));
    '(lat, lon) ←
      (if maidenhead_resolution >=? 8 then
         m6 ← Text.item maiden 6;
         let lon := (lon + inject_Z (Text.ord m6) * 5 / 600)%Q in
         m7 ← Text.item maiden 7;
         let lat := (lat + inject_Z (Text.ord m7) * 2.5 / 600)%Q in
         Ok (lat, lon)
       else Ok (lat, lon));
    Ok (lat, lon).

(** ** FrequencyPoll: [getvfo] and [comparevfo] *)

(** One pass of the body of [while True] in [getvfo].  [reply] is what
    [server.rig.get_vfo()] does in this pass: the value flrig returns, or
    the exception the XML-RPC transport raises.  The result is the new
    [THE_VFO], or the exception that neither [except] clause catches. *)
Definition getvfo_body (reply : result pyval) : result pyfloat :=
  try_except
    (v ← reply; f ← py_float v; Ok (float_div_pos f 1000))
    [ValueError; TypeError] (Fin 0).

(** State of the polling thread: the shared [THE_VFO], the number of
    passes completed, and the exception that ended the thread, if any. *)
Record poll := { THE_VFO : pyfloat; passes : nat; ended : option exn }.

(** [getvfo()] run against the replies of successive polls.  A pass whose
    exception is not caught leaves [THE_VFO] as it was and ends the loop;
    the replies after it are never requested. *)
Fixpoint getvfo (replies : list (result pyval)) (st : poll) : poll :=
  match replies with
  | [] => st
  | reply :: later =>
      match getvfo_body reply with
      | Ok vfo =>
          getvfo later {| THE_VFO := vfo; passes := S (passes st);
                          ended := None |}
      | Raise e =>
          {| THE_VFO := THE_VFO st; passes := passes st; ended := Some e |}
      end
  end.

(** [comparevfo(freq)]; [freq] comes from the REAL column of a spot, on
    which [float(freq)] is the identity. *)
Definition comparevfo (the_vfo freq : pyfloat) : pyfloat :=
  if float_ltb the_vfo freq then float_sub freq the_vfo
  else float_sub the_vfo freq.

(** ** Render: [updatecontactlist], [alreadyworked] and the row style *)

(** [CONTACTLIST]: band to the callsigns logged on it.  Built afresh from
    the rows of the contact log, each a pair of its "band" and "callsign"
    entries. *)
Definition updatecontactlist (contacts : list (string * string))
  : gmap string (list string) :=
  foldl (fun (cl : gmap string (list string)) contact =>
           let '(band, callsign) := contact in
           match cl !! band with
           | Some worked => <[band := (worked ++ [callsign])%list]> cl
           | None => <[band := [callsign]]> cl
           end) ∅ contacts.

(** [alreadyworked(callsign, band)].  [band] is a label of [getband]; it
    comes back from the INTEGER column as the number it spells and
    [str(band)] spells it again. *)
Definition alreadyworked (CONTACTLIST : gmap string (list string))
    (callsign band : string) : bool :=
  match CONTACTLIST !! band with
  | Some worked => bool_decide (callsign ∈ worked)
  | None => false
  end.

(** The [else] branch of the loop of [showspots]: the style of one row. *)
Definition spot_style (CONTACTLIST : gmap string (list string))
    (the_vfo : pyfloat) (callsign : string) (frequency : pyfloat)
    (band : string) : string :=
  let style := if inband frequency then "" else "" in
  let style :=
    if float_ltb (comparevfo the_vfo frequency) (Fin 0.8)
    then "bold on color(237)" else style in
  let style :=
    if float_ltb (comparevfo the_vfo frequency) (Fin 0.5)
    then "bold on color(240)" else style in
  let style :=
    if float_ltb (comparevfo the_vfo frequency) (Fin 0.2)
    then "bold on blue" else style in
  let style :=
    if alreadyworked CONTACTLIST callsign band
    then "bold on color(88)" else style in
  style.

(** ** Ingest: the acceptance filters of [getrbn] *)

(** The six groups of a match of [RBN_PARSER]. *)
Record rbn_match := {
  rbn_spotter : string;
  rbn_freq : string;
  rbn_callsign : string;
  rbn_mode : string;
  rbn_db : string;
  rbn_time : string
}.

Record settings := {
  localspotters : list string;
  SHOW_OUT_OF_BAND : bool;
  LIMIT_BANDS : list string;
  SPOT_TO_OLD : Z
}.

(** What the loop does with one matched entry: [continue] (or fall off the
    last [if]), or call [DataBase.add_spot(callsign, freq, band, _)]. *)
Inductive entry_action : Type :=
| Discard
| AddSpot (callsign : string) (freq : pyfloat) (band : string).

(** The body of [for entry in data] from [spotter = parsed[0][0]] on. *)
Definition getrbn_entry (cfg : settings) (parsed : rbn_match)
  : result entry_action :=
  let spotter := rbn_spotter parsed in
  let mode := rbn_mode parsed in
  if negb (String.eqb mode "CW") then Ok Discard
  else if negb (bool_decide (spotter ∈ localspotters cfg)) then Ok Discard
  else
    freq ← py_float (PyStr (rbn_freq parsed));
    band ← getband (PyFloat freq);
    let callsign := rbn_callsign parsed in
    if negb (inband freq) && negb (SHOW_OUT_OF_BAND cfg) then Ok Discard
    else if bool_decide (band ∈ LIMIT_BANDS cfg)
         then Ok (AddSpot callsign freq band)
         else Ok Discard.

(** ** SpotStore: the [spots] table of [DataBase] *)

Module Spot.

(** A row of [spots]: [id INTEGER PRIMARY KEY, callsign text,
    date_time text, frequency REAL, band INTEGER]. *)
Record t := {
  id : Z;
  callsign : string;
  date_time : Z;
  frequency : Q;
  band : string
}.

End Spot.

(** The table, rows in rowid order. *)
Abbreviation table := (list Spot.t).

(** The PRIMARY KEY constraint: no two rows share an id. *)
Definition keyed (db : table) : Prop := NoDup (Spot.id <$> db).

(** The invariant of section 3: no two rows carry the same callsign. *)
Definition distinct (db : table) : Prop := NoDup (Spot.callsign <$> db).

(** [Cast((JulianDay(datetime('now')) - JulianDay(date_time)) * 24 * 60 *
    60 As Integer)], taken as the exact number of seconds between the two
    stamps. *)
Definition age (now : Z) (row : Spot.t) : Z := now - Spot.date_time row.

(** [delete from spots where <age> > spot_to_old]. *)
Definition delete_old (now spot_to_old : Z) (db : table) : table :=
  filter (fun row => ¬ (age now row > spot_to_old)) db.

(** The rowid SQLite gives an inserted row: one more than the largest in
    the table, 1 in an empty table. *)
Definition next_id (db : table) : Z :=
  1 + foldr Z.max 0 (Spot.id <$> db).


(** [select * from spots order by date_time asc] followed by
    [fetchone()]: the first row, in rowid order, of least [date_time];
    [None] on an empty table. *)
Fixpoint fetch_oldest (db : table) : option Spot.t :=
  match db with
  | [] => None
  | row :: rest =>
      match fetch_oldest rest with
      | Some other =>
          if Spot.date_time other <? Spot.date_time row
          then Some other else Some row
      | None => Some row
      end
  end.

(** [prune_oldest_spot()].  Unpacking [None] into five names raises
    [TypeError]; the connection's context manager then rolls back, and
    nothing had been written. *)
Definition prune_oldest_spot (db : table) : result table :=
  match fetch_oldest db with
  | None => Raise TypeError
  | Some result =>
      let spot_index := Spot.id result in
      Ok (filter (fun row => Spot.id row ≠ spot_index) db)
  end.

(** An f-string splices [text] between apostrophes into a statement; the
    literal denotes [text] when [text] holds no apostrophe.  The callsigns
    of [RBN_PARSER] ([[A-Z\d\-\/]*]) and the labels of [getband] hold
    none. *)
Definition plain (text : string) : Prop :=
  "'"%char ∉ list_ascii_of_string text.

(** [update spots set frequency=.., date_time=datetime('now'), band=..
    where callsign=..]. *)
Definition overwrite (now : Z) (freq : Q) (band : string) (row : Spot.t)
  : Spot.t :=
  {| Spot.id := Spot.id row; Spot.callsign := Spot.callsign row;
     Spot.date_time := now; Spot.frequency := freq; Spot.band := band |}.

Definition update_spot (now : Z) (callsign : string) (freq : Q)
    (band : string) (row : Spot.t) : Spot.t :=
  if decide (Spot.callsign row = callsign)
  then overwrite now freq band row
  else row.

(** [add_spot(callsign, freq, band, spot_to_old)]; its three statements
    read the same clock value [now]. *)
Definition add_spot (now : Z) (callsign : string) (freq : Q) (band : string)
    (spot_to_old : Z) (db : table) : table :=
  let db := delete_old now spot_to_old db in
  let result := length (filter (fun row => Spot.callsign row = callsign) db) in
  if decide (result = 0%nat) then
    (db ++ [ {| Spot.id := next_id db; Spot.callsign := callsign;
                Spot.date_time := now; Spot.frequency := freq;
                Spot.band := band |} ])%list
  else update_spot now callsign freq band <$> db.

(** One call of [add_spot] as the ingest loop issues it. *)
Record upsert := {
  at_time : Z;
  up_callsign : string;
  up_freq : Q;
  up_band : string;
  up_ttl : Z
}.

Definition apply_upsert (db : table) (u : upsert) : table :=
  add_spot (at_time u) (up_callsign u) (up_freq u) (up_band u) (up_ttl u) db.

(** The table after a sequence of upserts, the first applied first. *)
Definition upserts (us : list upsert) (db : table) : table :=
  foldl apply_upsert db us.


(** ** The tables of the specification *)

(** The band table of section 4.2, bounds in kHz; the rows the section
    leaves out are those of [getband]. *)
Definition band_table : list (Z * Z * string) :=
  [ (1800, 2000, "160"); (3500, 4000, "80"); (5330, 5406, "60");
    (7000, 7300, "40"); (10100, 10150, "30"); (14000, 14350, "20");
    (18068, 18168, "17"); (21000, 21450, "15"); (24890, 24990, "12");
    (28000, 29700, "10"); (50000, 54000, "6"); (144000, 148000, "2") ].

(** The specification's reading of the table: a range holds its lower
    bound and not its upper bound. *)
Definition bandOf_inclusive_open (khz : Q) : string :=
  match find (fun '(lo, hi, _) =>
                Qle_bool (inject_Z lo) khz && negb (Qle_bool (inject_Z hi) khz))
             band_table with
  | Some (_, _, label) => label
  | None => "0"
  end.

(** The table of general sub-bands of section 4.2, bounds in kHz, with
    the rows of [inband]. *)
Definition general_table : list (Z * Z) :=
  [ (1800, 2000); (3525, 3600); (3800, 4000); (7025, 7125); (7175, 7300);
    (10100, 10150); (14025, 14150); (14225, 14350); (18068, 18168);
    (21025, 21200); (21275, 21450); (24890, 24990); (28000, 29700);
    (50000, 54000) ].

(** A whole number of kHz strictly inside a range. *)
Definition inside (khz : Z) (range : Z * Z * string) : Prop :=
  range.1.1 < khz < range.1.2.

(** A valid grid-location code: 2, 4, 6 or 8 characters, of which the
    first pair are letters A-R, the second pair digits, the third pair
    letters A-X and the fourth pair digits; letters in either case. *)
Module Maidenhead.

Definition letter_upto (last : nat) (c : ascii) : bool :=
  let n := nat_of_ascii (Text.upper c) in (65 <=? n)%nat && (n <=? last)%nat.

Definition field : ascii → bool := letter_upto 82.
Definition subsquare : ascii → bool := letter_upto 88.

Definition valid (code : string) : bool :=
  match list_ascii_of_string code with
  | [f1; f2] => field f1 && field f2
  | [f1; f2; d1; d2] =>
      field f1 && field f2
      && FloatText.is_digit d1 && FloatText.is_digit d2
  | [f1; f2; d1; d2; s1; s2] =>
      field f1 && field f2
      && FloatText.is_digit d1 && FloatText.is_digit d2
      && subsquare s1 && subsquare s2
  | [f1; f2; d1; d2; s1; s2; e1; e2] =>
      field f1 && field f2
      && FloatText.is_digit d1 && FloatText.is_digit d2
      && subsquare s1 && subsquare s2
      && FloatText.is_digit e1 && FloatText.is_digit e2
  | _ => false
  end.

End Maidenhead.

(** The style tiers of section 4.6, highest priority first, each with
    its condition; [Default] always holds. *)
Inductive tier : Type :=
| AlreadyWorked | InPassband | Near | Nearby | Default.

Definition tiers_by_priority : list tier :=
  [AlreadyWorked; InPassband; Near; Nearby; Default].

Definition tier_holds (CONTACTLIST : gmap string (list string))
    (the_vfo : pyfloat) (callsign : string) (frequency : pyfloat)
    (band : string) (t : tier) : bool :=
  let delta := comparevfo the_vfo frequency in
  match t with
  | AlreadyWorked => alreadyworked CONTACTLIST callsign band
  | InPassband => float_ltb delta (Fin 0.2)
  | Near => float_ltb delta (Fin 0.5)
  | Nearby => float_ltb delta (Fin 0.8)
  | Default => true
  end.

Definition tier_style (t : tier) : string :=
  match t with
  | AlreadyWorked => "bold on color(88)"
  | InPassband => "bold on blue"
  | Near => "bold on color(240)"
  | Nearby => "bold on color(237)"
  | Default => ""
  end.

(** Rank of a tier, 0 the highest priority. *)
Definition rank (t : tier) : nat :=
  match t with
  | AlreadyWorked => 0
  | InPassband => 1
  | Near => 2
  | Nearby => 3
  | Default => 4
  end.

(** The tier of highest priority among those whose condition holds. *)
Definition highlight (CONTACTLIST : gmap string (list string))
    (the_vfo : pyfloat) (callsign : string) (frequency : pyfloat)
    (band : string) : tier :=
  default Default
    (find (tier_holds CONTACTLIST the_vfo callsign frequency band)
          tiers_by_priority).

(** ** Render: [getspots] and one pass of [showspots] *)

(** [order by frequency asc]. *)
Definition by_frequency (r1 r2 : Spot.t) : Prop :=
  (Spot.frequency r1 <= Spot.frequency r2)%Q.

#[global] Instance by_frequency_dec : RelDecision by_frequency.
Proof.
  intros r1 r2. unfold by_frequency.
  destruct (Qlt_le_dec (Spot.frequency r2) (Spot.frequency r1));
    [right; by apply Qlt_not_le | by left].
Defined.

(** [getspots()]: every row with its age in seconds, by ascending
    frequency.  SQLite does not fix the order of rows of equal frequency;
    the model takes the order of a merge sort. *)
Definition getspots (now : Z) (db : table) : list (Spot.t * Z) :=
  (λ row, (row, age now row)) <$> merge_sort by_frequency db.

(** What [console.print] receives for a row: the fields it formats and
    the style. *)
Record shown := {
  shown_callsign : string;
  shown_frequency : Q;
  shown_band : string;
  shown_date_time : Z;
  shown_delta : Z;
  shown_style : string
}.

Definition shown_row (CONTACTLIST : gmap string (list string))
    (the_vfo : pyfloat) (spot : Spot.t * Z) : shown :=
  let '(row, delta) := spot in
  {| shown_callsign := Spot.callsign row;
     shown_frequency := Spot.frequency row;
     shown_band := Spot.band row;
     shown_date_time := Spot.date_time row;
     shown_delta := delta;
     shown_style :=
       spot_style CONTACTLIST the_vfo (Spot.callsign row)
         (Fin (Spot.frequency row)) (Spot.band row) |}.

(** [for spot in result] of [showspots]: the rows printed and the table
    left, with no other store operation in between.  [height] is
    [console.height]; [displayed] counts the lines used so far. *)
Fixpoint showspots_rows (height : Z) (CONTACTLIST : gmap string (list string))
    (the_vfo : pyfloat) (spots : list (Spot.t * Z)) (displayed : Z)
    (db : table) : result (list shown * table) :=
  match spots with
  | [] => Ok ([], db)
  | spot :: later =>
      let displayed := displayed + 1 in
      if displayed >? height then
        db ← prune_oldest_spot db;
        showspots_rows height CONTACTLIST the_vfo later displayed db
      else
        '(rows, db) ←
          showspots_rows height CONTACTLIST the_vfo later displayed db;
        Ok (shown_row CONTACTLIST the_vfo spot :: rows, db)
  end.

(** One turn of [while True] in [showspots], at time [now], with the
    contact log holding [contacts]. *)
Definition showspots_pass (height : Z) (contacts : list (string * string))
    (the_vfo : pyfloat) (now : Z) (db : table)
  : result (list shown * table) :=
  let CONTACTLIST := updatecontactlist contacts in
  let spots := getspots now db in
  let displayed := 2 in
  showspots_rows height CONTACTLIST the_vfo spots displayed db.

(** [text.upper()] on a whole string, as [run] applies it to the home
    grid. *)
Definition upper_text (text : string) : string :=
  string_of_list_ascii (map Text.upper (list_ascii_of_string text)).

(** A string of blanks only. *)
Definition blank (text : string) : Prop :=
  Forall (λ c, Text.is_space c = true) (list_ascii_of_string text).

(** ** The band allow-list from the command line *)

(** [repr] of a [str] and of a list of them, as [str(args.bands)] forms
    it. *)
Module Repr.

(** The double quote. *)
Definition dquote : ascii :=
  Ascii false true false false false true false false.

Definition hex (n : nat) : ascii :=
  nth n (list_ascii_of_string "0123456789abcdef") "0"%char.

(** The quote [repr] chooses: the apostrophe, unless the text holds
    apostrophes and no double quote. *)
Definition quote (text : list ascii) : ascii :=
  if bool_decide ("'"%char ∈ text) && negb (bool_decide (dquote ∈ text))
  then dquote else "'"%char.

(** One character inside the quotes.  Control characters, DEL and the
    unprintable code points from 128 on are written as escapes. *)
Definition escape (q c : ascii) : list ascii :=
  let n := nat_of_ascii c in
  if Ascii.eqb c q || Ascii.eqb c "\"%char then ["\"%char; c]
  else if (n =? 9)%nat then ["\"%char; "t"%char]
  else if (n =? 10)%nat then ["\"%char; "n"%char]
  else if (n =? 13)%nat then ["\"%char; "r"%char]
  else if (n <? 32)%nat || (n =? 127)%nat
          || ((128 <=? n)%nat && (n <=? 160)%nat) || (n =? 173)%nat
       then ["\"%char; "x"%char; hex (n / 16); hex (n mod 16)]
  else [c].

Definition of_str (text : list ascii) : list ascii :=
  let q := quote text in
  q :: concat (map (escape q) text) ++ [q].

(** [", ".join(items)]. *)
Fixpoint join (items : list (list ascii)) : list ascii :=
  match items with
  | [] => []
  | item :: more =>
      match more with
      | [] => item
      | _ => item ++ ","%char :: " "%char :: join more
      end
  end.

Definition of_list (items : list string) : list ascii :=
  "["%char :: join (map (λ item, of_str (list_ascii_of_string item)) items)
  ++ ["]"%char].

End Repr.

(** [text.split()]: the maximal runs of characters that are not blanks.
    [word] holds the run being read, last character first. *)
Fixpoint split_from (word text : list ascii) : list (list ascii) :=
  match text with
  | [] => match word with [] => [] | _ => [rev word] end
  | c :: text' =>
      if Text.is_space c then
        match word with
        | [] => split_from [] text'
        | _ => rev word :: split_from [] text'
        end
      else split_from (c :: word) text'
  end.

Definition split (text : list ascii) : list string :=
  string_of_list_ascii <$> split_from [] text.

(** [LIMIT_BANDS] from [args.bands]: [None] without [-b], else the list
    of the words given. *)
Definition limit_bands (bands : option (list string)) : list string :=
  match bands with
  | Some (band :: more) => split (Repr.of_list (band :: more))
  | _ => ["80"; "40"; "20"; "15"; "10"; "6"]
  end.

(** ** [DataBase.row_factory] *)

(** [{col[0]: row[idx] for idx, col in enumerate(cursor.description)}]:
    [description] holds the column names, [dict] the entries made so far. *)
Fixpoint row_factory_from {V} (idx : nat) (description : list string)
    (row : list V) (dict : gmap string V) : result (gmap string V) :=
  match description with
  | [] => Ok dict
  | col :: cols =>
      match row !! idx with
      | Some value => row_factory_from (S idx) cols row (<[col := value]> dict)
      | None => Raise IndexError
      end
  end.

Definition row_factory {V} (description : list string) (row : list V)
  : result (gmap string V) :=
  row_factory_from 0 description row ∅.

(** ** Frequency texts *)

(** The texts the frequency group of [RBN_PARSER], any number of [\d]
    and [.], matches on ASCII input: digits and dots in any order. *)
Definition digits_and_dots (text : list ascii) : Prop :=
  Forall (λ c, FloatText.is_digit c = true ∨ c = "."%char) text.

(** The number of dots of a text. *)
Definition dots (text : list ascii) : nat :=
  length (filter (λ c, c = "."%char) text).

(** ** Sample data *)

(** The default allow-list, a single trusted skimmer, general licence
    ([--general], so out-of-band display is off). *)
Definition general_setup : settings :=
  {| localspotters := ["W6YX"];
     SHOW_OUT_OF_BAND := false;
     LIMIT_BANDS := ["80"; "40"; "20"; "15"; "10"; "6"];
     SPOT_TO_OLD := 600 |}.

(** The groups of "DX de W6YX-#:  14025.0  K3LR  CW  21 dB  24 WPM CQ
    1815Z". *)
Definition line_14025 : rbn_match :=
  {| rbn_spotter := "W6YX"; rbn_freq := "14025.0"; rbn_callsign := "K3LR";
     rbn_mode := "CW"; rbn_db := "21"; rbn_time := "1815Z" |}.

(** K3LR logged on 40 m and the receiver on 7030.00 kHz. *)
Definition worked_k3lr : gmap string (list string) :=
  updatecontactlist [("40", "K3LR")].

(** Three spots on two bands; the oldest is the one on 20 m. *)
Definition three_spots : table :=
  [ {| Spot.id := 1; Spot.callsign := "K3LR"; Spot.date_time := 120;
       Spot.frequency := 7030; Spot.band := "40" |};
    {| Spot.id := 2; Spot.callsign := "W1AW"; Spot.date_time := 100;
       Spot.frequency := 14047.5; Spot.band := "20" |};
    {| Spot.id := 3; Spot.callsign := "N0CALL"; Spot.date_time := 130;
       Spot.frequency := 7012; Spot.band := "40" |} ].

(** The scenario of section 8: N0CALL at 7030 kHz, then at 7200 kHz five
    seconds later, with the default age limit. *)
Definition n0call_7030 : upsert :=
  {| at_time := 1000; up_callsign := "N0CALL"; up_freq := 7030;
     up_band := "40"; up_ttl := 600 |}.

Definition n0call_7200 : upsert :=
  {| at_time := 1005; up_callsign := "N0CALL"; up_freq := 7200;
     up_band := "40"; up_ttl := 600 |}.

Definition idle : poll :=
  {| THE_VFO := Fin 7030; passes := 0; ended := None |}.

(** The labels [getband] can return. *)
Definition band_labels : list string :=
  ["160"; "80"; "60"; "40"; "30"; "20"; "17"; "15"; "12"; "10"; "6"; "2";
   "0"].

(** The lower edges that a band and its general sub-band share. *)
Definition shared_lower_edges : list Z :=
  [1800; 10100; 18068; 24890; 28000; 50000].

(** The groups of "DX de W6YX-#:  7030.1  K3LR  CW  18 dB  22 WPM CQ
    1816Z". *)
Definition line_7030 : rbn_match :=
  {| rbn_spotter := "W6YX"; rbn_freq := "7030.1"; rbn_callsign := "K3LR";
     rbn_mode := "CW"; rbn_db := "18"; rbn_time := "1816Z" |}.

(** A line whose frequency group has two dots. *)
Definition line_two_dots : rbn_match :=
  {| rbn_spotter := "W6YX"; rbn_freq := "7030.1.5"; rbn_callsign := "K3LR";
     rbn_mode := "CW"; rbn_db := "18"; rbn_time := "1816Z" |}.

(** A line half a kHz above the lower edge of 10 m. *)
Definition line_28000_5 : rbn_match :=
  {| rbn_spotter := "W6YX"; rbn_freq := "28000.5"; rbn_callsign := "K3LR";
     rbn_mode := "CW"; rbn_db := "18"; rbn_time := "1816Z" |}.

(** * Theorems *)

Lemma ltb_khz (a k : Z) : (a * 1000 <? k * 1000) = (a <? k).
Proof. destruct (Z.ltb_spec (a * 1000) (k * 1000)), (Z.ltb_spec a k); lia. Qed.

Lemma band_of_hz_khz (k : Z) :
  band_of_hz (k * 1000) =
  match find (fun '(lo, hi, _) => (lo <? k) && (k <? hi)) band_table with
  | Some (_, _, label) => label
  | None => "0"
  end.
Proof.
  unfold band_of_hz, band_table, find.
  repeat match goal with
  | |- context [ Z.ltb ?a (k * 1000) ] =>
      let a' := eval compute in (a / 1000) in
      change a with (a' * 1000); rewrite (ltb_khz a' k)
  | |- context [ Z.ltb (k * 1000) ?a ] =>
      let a' := eval compute in (a / 1000) in
      change a with (a' * 1000); rewrite (ltb_khz k a')
  end.
  repeat match goal with
  | |- context [ if ?c then _ else _ ] => destruct c; [reflexivity|]
  end.
  reflexivity.
Qed.

Lemma getband_finite (q : Q) :
  getband (PyFloat (Fin q)) = Ok (band_of_hz (Qtrunc q * 1000)).
Proof. reflexivity. Qed.

Lemma band_table_disjoint (k : Z) (r1 r2 : Z * Z * string) :
  r1 ∈ band_table -> r2 ∈ band_table -> inside k r1 -> inside k r2 -> r1 = r2.
Proof.
  unfold band_table, inside. rewrite !elem_of_cons, !elem_of_nil.
  intros H1 H2 I1 I2.
  repeat (destruct H1 as [-> | H1]; [| ]);
  try (exfalso; exact H1); 
  repeat (destruct H2 as [-> | H2]; [| ]);
  try (exfalso; exact H2); simpl in *; try reflexivity; lia.
Qed.

Lemma inside_test (k : Z) (r : Z * Z * string) :
  (let '(lo, hi, _) := r in (lo <? k) && (k <? hi)) = true <-> inside k r.
Proof.
  destruct r as [[lo hi] l]. unfold inside. simpl.
  rewrite andb_true_iff, !Z.ltb_lt. reflexivity.
Qed.

(** C5 (as amended).  On every finite frequency [getband] returns one
    label: that of the one range of the table that holds the frequency,
    truncated to whole kHz, strictly between its bounds, and "0" when no
    range does.  No two ranges hold the same frequency. *)
Theorem getband_partition (q : Q) :
  ∃ label : string,
    getband (PyFloat (Fin q)) = Ok label
    ∧ (∀ r, r ∈ band_table → inside (Qtrunc q) r → label = r.2)
    ∧ ((∀ r, r ∈ band_table → ¬ inside (Qtrunc q) r) → label = "0")
    ∧ (∀ r r', r ∈ band_table → r' ∈ band_table →
         inside (Qtrunc q) r → inside (Qtrunc q) r' → r = r').
Proof.
  rewrite getband_finite, band_of_hz_khz.
  set (k := Qtrunc q).
  destruct (find _ band_table) as [[[lo hi] l]|] eqn:Hfind.
  - apply find_some in Hfind as [Hin Htest].
    apply list_elem_of_In in Hin.
    apply (inside_test k (lo, hi, l)) in Htest.
    exists l. split; [reflexivity|]. split; [|split].
    + intros r Hr Hi.
      by rewrite (band_table_disjoint k r (lo, hi, l) Hr Hin Hi Htest).
    + intros Hnone. destruct (Hnone _ Hin Htest).
    + intros r r'. apply band_table_disjoint.
  - exists "0". split; [reflexivity|]. split; [|split].
    + intros r Hr Hi. apply list_elem_of_In in Hr.
      pose proof (find_none _ _ Hfind r Hr) as Hno.
      apply inside_test in Hi. simpl in Hno. congruence.
    + reflexivity.
    + intros r r'. apply band_table_disjoint.
Qed.

(** C5 (as stated) fails at 1800 kHz, the lower bound of the first range:
    the inclusive-open table gives "160", [getband] gives "0". *)
Lemma getband_lower_bound_unclassified :
  bandOf_inclusive_open (inject_Z 1800) = "160"
  ∧ getband (PyFloat (of_Z 1800)) = Ok "0".
Proof. split; reflexivity. Qed.

(** Every lower bound of the table, and every frequency less than 1 kHz
    above it, is unclassified. *)
Lemma getband_lower_bounds (r : Z * Z * string) (q : Q) :
  r ∈ band_table → Qtrunc q = r.1.1 → getband (PyFloat (Fin q)) = Ok "0".
Proof.
  intros Hr Hq. rewrite getband_finite, Hq, band_of_hz_khz.
  unfold band_table in Hr. rewrite !elem_of_cons, elem_of_nil in Hr.
  repeat (destruct Hr as [-> | Hr]; [reflexivity|]). destruct Hr.
Qed.

(** ** C10: [getband] on inputs that do not convert *)

(** C10 (as amended).  When [int(float(freq))] raises, [getband] returns
    "0" if the exception is a [ValueError] or a [TypeError], and lets any
    other exception through. *)
Theorem getband_conversion_failure (freq : pyval) (e : exn) :
  int_float freq = Raise e →
  if isinstance e ValueError || isinstance e TypeError
  then getband freq = Ok "0"
  else getband freq = Raise e.
Proof.
  intros Hfail. unfold getband. rewrite Hfail. simpl.
  rewrite orb_false_r.
  destruct (isinstance e ValueError || isinstance e TypeError); reflexivity.
Qed.

Lemma getband_conversion_failure_witness :
  getband (PyStr "not a number") = Ok "0".
Proof.
  exact (getband_conversion_failure (PyStr "not a number") ValueError eq_refl).
Defined.

(** C10 (as stated) fails on an infinite frequency, given as a float or as
    text: the conversion [int(float(freq))] fails with [OverflowError] and
    [getband] raises it. *)
Lemma getband_infinity_raises :
  int_float (PyFloat PosInf) = Raise OverflowError
  ∧ getband (PyFloat PosInf) = Raise OverflowError
  ∧ int_float (PyStr "inf") = Raise OverflowError
  ∧ getband (PyStr "inf") = Raise OverflowError.
Proof. repeat split; reflexivity. Qed.

Lemma py_float_raises (x : pyval) (e : exn) :
  py_float x = Raise e → e = TypeError ∨ e = ValueError ∨ e = OverflowError.
Proof.
  destruct x as [ | z | f | s | ]; unfold py_float.
  - intros [= <-]. auto.
  - destruct (overflows _); intros [= <-]. auto.
  - intros [=].
  - destruct (FloatText.parse s); intros [= <-]. auto.
  - intros [= <-]. auto.
Qed.

(** [OverflowError] is the only exception [getband] ever raises. *)
Lemma getband_raises_only_overflow (freq : pyval) :
  (∃ label, getband freq = Ok label) ∨ getband freq = Raise OverflowError.
Proof.
  unfold getband, int_float.
  destruct (py_float freq) as [f|e] eqn:Hf.
  - destruct f; cbn; eauto.
  - apply py_float_raises in Hf as [-> | [-> | ->]]; cbn; eauto.
Qed.

(** The examples of C10: a string that is no number and a missing value. *)
Lemma getband_missing_value :
  getband PyNone = Ok "0" ∧ getband (PyStr "") = Ok "0"
  ∧ getband (PyFloat NaN) = Ok "0".
Proof. repeat split; reflexivity. Qed.

(** ** C4: the acceptance filters at 14025 kHz *)

Lemma float_ltb_Fin (a b : Q) : float_ltb (Fin a) (Fin b) = true ↔ (a < b)%Q.
Proof.
  simpl. rewrite negb_true_iff, <- not_true_iff_false, Qle_bool_iff.
  split; [apply Qnot_le_lt | apply Qlt_not_le].
Qed.

Lemma between_Fin (lo hi : Z) (q : Q) :
  between lo hi (Fin q) = true ↔ (inject_Z lo < q ∧ q < inject_Z hi)%Q.
Proof.
  unfold between, float_gtb, of_Z.
  rewrite andb_true_iff, !float_ltb_Fin. reflexivity.
Qed.

(** [inband] holds exactly strictly inside a range of the general table. *)
Lemma inband_general (q : Q) :
  inband (Fin q) = true ↔
  ∃ lo hi, (lo, hi) ∈ general_table ∧ (inject_Z lo < q ∧ q < inject_Z hi)%Q.
Proof.
  unfold inband. split.
  - repeat match goal with
    | |- context [ if between ?lo ?hi (Fin q) then _ else _ ] =>
        destruct (between lo hi (Fin q)) eqn:?
    end;
    intros; try discriminate;
    match goal with
    | H : between ?lo ?hi (Fin q) = true |- _ =>
        exists lo, hi; split;
        [unfold general_table; set_solver | by apply between_Fin]
    end.
  - intros (lo & hi & Hin & Hq). apply between_Fin in Hq.
    unfold general_table in Hin. rewrite !elem_of_cons, elem_of_nil in Hin.
    repeat (destruct Hin as [[= -> ->] | Hin];
            [rewrite Hq;
             repeat match goal with
             | |- context [ if ?c then _ else _ ] => destruct c
             end; reflexivity|]).
    destruct Hin.
Qed.

Lemma Qtrunc_whole (q : Q) (z : Z) : (q == inject_Z z)%Q → Qtrunc q = z.
Proof.
  destruct q as [n d]. unfold Qeq, Qtrunc. simpl. intros H.
  replace n with (z * Z.pos d) by lia. apply Z.quot_mul. lia.
Qed.

(** C4 (as amended).  A matched line in mode "CW" from a trusted station
    at 14025 kHz classifies to band "20" and is not in the general
    sub-band; with "20" on the allow-list it is stored when out-of-band
    display is on and discarded when it is off. *)
Theorem getrbn_entry_14025 (cfg : settings) (parsed : rbn_match) (q : Q) :
  rbn_mode parsed = "CW" →
  rbn_spotter parsed ∈ localspotters cfg →
  py_float (PyStr (rbn_freq parsed)) = Ok (Fin q) →
  (q == inject_Z 14025)%Q →
  "20" ∈ LIMIT_BANDS cfg →
  getband (PyFloat (Fin q)) = Ok "20"
  ∧ inband (Fin q) = false
  ∧ getrbn_entry cfg parsed =
      Ok (if SHOW_OUT_OF_BAND cfg
          then AddSpot (rbn_callsign parsed) (Fin q) "20"
          else Discard).
Proof.
  intros Hmode Hspotter Hfreq Hq Hband.
  assert (Hlabel : getband (PyFloat (Fin q)) = Ok "20").
  { rewrite getband_finite, (Qtrunc_whole q 14025 Hq). reflexivity. }
  assert (Hout : inband (Fin q) = false).
  { apply not_true_iff_false. rewrite inband_general.
    intros (lo & hi & Hin & Hlo & Hhi). rewrite Hq in Hlo, Hhi.
    rewrite <- Zlt_Qlt in Hlo, Hhi.
    unfold general_table in Hin. rewrite !elem_of_cons, elem_of_nil in Hin.
    repeat (destruct Hin as [[= -> ->] | Hin]; [lia|]). destruct Hin. }
  repeat split; [done..|].
  unfold getrbn_entry. rewrite Hmode, Hfreq. cbn [String.eqb negb].
  rewrite (bool_decide_eq_true_2 _ Hspotter). cbn [negb].
  cbn [mbind result_bind bind]. rewrite Hlabel, Hout.
  cbn [mbind result_bind bind negb andb].
  rewrite (bool_decide_eq_true_2 _ Hband).
  by destruct (SHOW_OUT_OF_BAND cfg).
Qed.

Lemma getrbn_entry_14025_witness :
  getrbn_entry general_setup line_14025 = Ok Discard.
Proof.
  exact (proj2 (proj2
    (getrbn_entry_14025 general_setup line_14025 14025.0%Q
       eq_refl (list_elem_of_here _ _) eq_refl eq_refl
       (list_elem_of_further _ _ _
          (list_elem_of_further _ _ _ (list_elem_of_here _ _)))))).
Defined.

(** C4 (as stated) fails: with out-of-band display off the line at
    14025 kHz from a trusted station is discarded, because [inband] is
    false there. *)
Lemma getrbn_entry_14025_discarded :
  rbn_mode line_14025 = "CW"
  ∧ rbn_spotter line_14025 ∈ localspotters general_setup
  ∧ "20" ∈ LIMIT_BANDS general_setup
  ∧ inband (of_Z 14025) = false
  ∧ getrbn_entry general_setup line_14025 = Ok Discard.
Proof.
  split; [reflexivity|]. split; [apply list_elem_of_here|].
  split; [unfold general_setup; simpl; set_solver|].
  split; vm_compute; reflexivity.
Qed.

(** Strictly inside the general sub-band 14025-14150 the line is stored
    whether or not out-of-band display is on. *)
Lemma getrbn_entry_general_20m (cfg : settings) (parsed : rbn_match) (q : Q) :
  rbn_mode parsed = "CW" →
  rbn_spotter parsed ∈ localspotters cfg →
  py_float (PyStr (rbn_freq parsed)) = Ok (Fin q) →
  (14025 < q)%Q → (q < 14150)%Q →
  "20" ∈ LIMIT_BANDS cfg →
  getrbn_entry cfg parsed = Ok (AddSpot (rbn_callsign parsed) (Fin q) "20").
Proof.
  intros Hmode Hspotter Hfreq Hlo Hhi Hband.
  assert (Hin : inband (Fin q) = true).
  { apply inband_general. exists 14025, 14150.
    split; [unfold general_table; set_solver | done]. }
  assert (Hlabel : getband (PyFloat (Fin q)) = Ok "20").
  { rewrite getband_finite, band_of_hz_khz.
    assert (14025 <= Qtrunc q < 14150) as Hk.
    { destruct q as [n d]. unfold Qlt, Qtrunc in *. simpl in *.
      split.
      - apply Z.quot_le_lower_bound; lia.
      - apply Z.quot_lt_upper_bound; lia. }
    unfold band_table, find.
    repeat match goal with
    | |- context [ Z.ltb ?a ?b ] => destruct (Z.ltb_spec a b); try lia
    end; reflexivity. }
  unfold getrbn_entry. rewrite Hmode, Hfreq. cbn [String.eqb negb].
  rewrite (bool_decide_eq_true_2 _ Hspotter). cbn [negb].
  cbn [mbind result_bind bind]. rewrite Hlabel, Hin.
  cbn [mbind result_bind bind negb andb].
  by rewrite (bool_decide_eq_true_2 _ Hband).
Qed.

(** ** C3: failures of the receiver-control query in [getvfo] *)

(** C3 (as amended).  When the query or the conversion of its reply
    raises, the pass handles a [ValueError] or a [TypeError]: [THE_VFO]
    becomes zero and the loop goes on with the next poll.  Any other
    exception is not handled: [THE_VFO] stays as it was and the loop
    ends with that exception. *)
Theorem getvfo_failure (reply : result pyval) (later : list (result pyval))
    (st : poll) (e : exn) :
  (v ← reply; py_float v) = Raise e →
  if isinstance e ValueError || isinstance e TypeError
  then getvfo_body reply = Ok (Fin 0)
       ∧ getvfo (reply :: later) st =
           getvfo later {| THE_VFO := Fin 0; passes := S (passes st);
                           ended := None |}
  else getvfo_body reply = Raise e
       ∧ getvfo (reply :: later) st =
           {| THE_VFO := THE_VFO st; passes := passes st; ended := Some e |}.
Proof.
  intros Hfail.
  assert (Hbody : getvfo_body reply =
                  if isinstance e ValueError || isinstance e TypeError
                  then Ok (Fin 0) else Raise e).
  { unfold getvfo_body.
    destruct reply as [v|e']; cbn [mbind result_bind bind] in *.
    - rewrite Hfail. cbn. by rewrite orb_false_r.
    - injection Hfail as ->. cbn. by rewrite orb_false_r. }
  cbn [getvfo]. rewrite Hbody.
  destruct (isinstance e ValueError || isinstance e TypeError); done.
Qed.

Lemma getvfo_failure_witness :
  getvfo [Ok (PyStr "busy"); Ok (PyStr "7030000")] idle =
  {| THE_VFO := Fin (7030000 / 1000); passes := 2; ended := None |}.
Proof.
  exact (eq_trans
    (proj2 (getvfo_failure (Ok (PyStr "busy")) [Ok (PyStr "7030000")]
              idle ValueError eq_refl))
    eq_refl).
Defined.

(** C3 (as stated) fails on a communication failure: when flrig refuses
    the connection the exception leaves the loop, [THE_VFO] is not set to
    zero and the later polls never happen. *)
Lemma getvfo_connection_refused :
  getvfo_body (Raise ConnectionRefusedError) = Raise ConnectionRefusedError
  ∧ getvfo [Raise ConnectionRefusedError; Ok (PyStr "7030000")] idle =
      {| THE_VFO := Fin 7030; passes := 0;
         ended := Some ConnectionRefusedError |}.
Proof. split; reflexivity. Qed.

(** A pass that raises nothing sets [THE_VFO] to the reply over 1000. *)
Lemma getvfo_reply (v : pyval) (f : pyfloat) :
  py_float v = Ok f → getvfo_body (Ok v) = Ok (float_div_pos f 1000).
Proof. intros H. unfold getvfo_body. cbn. by rewrite H. Qed.

(** ** C8: the style of a row *)

(** C8.  The style [showspots] gives a row is the style of the tier of
    highest priority whose condition holds: already worked, then within
    0.2, 0.5 and 0.8 kHz of [THE_VFO], then the default.  A row that is
    already worked has the "already worked" style whatever its distance
    from [THE_VFO], within 0.1 kHz included. *)
Theorem spot_style_priority (CONTACTLIST : gmap string (list string))
    (the_vfo : pyfloat) (callsign : string) (frequency : pyfloat)
    (band : string) :
  spot_style CONTACTLIST the_vfo callsign frequency band =
    tier_style (highlight CONTACTLIST the_vfo callsign frequency band)
  ∧ (alreadyworked CONTACTLIST callsign band = true →
     float_ltb (comparevfo the_vfo frequency) (Fin 0.1) = true →
     spot_style CONTACTLIST the_vfo callsign frequency band =
       tier_style AlreadyWorked).
Proof.
  unfold spot_style, highlight, tiers_by_priority, find, tier_holds.
  split.
  - destruct (alreadyworked _ _ _); [reflexivity|].
    destruct (float_ltb _ (Fin 0.2)); [reflexivity|].
    destruct (float_ltb _ (Fin 0.5)); [reflexivity|].
    destruct (float_ltb _ (Fin 0.8)); [reflexivity|].
    by destruct (inband frequency).
  - by intros -> _.
Qed.

(** The tier chosen holds, and no tier of higher priority does. *)
Lemma highlight_highest (CONTACTLIST : gmap string (list string))
    (the_vfo : pyfloat) (callsign : string) (frequency : pyfloat)
    (band : string) (t : tier) :
  let holds := tier_holds CONTACTLIST the_vfo callsign frequency band in
  let chosen := highlight CONTACTLIST the_vfo callsign frequency band in
  holds chosen = true ∧ (holds t = true → (rank chosen <= rank t)%nat).
Proof.
  unfold highlight, tiers_by_priority, find, tier_holds.
  destruct (alreadyworked _ _ _);
    [split; [done | destruct t; simpl; lia] |].
  destruct (float_ltb _ (Fin 0.2));
    [split; [done | destruct t; simpl; intros; (lia || congruence)] |].
  destruct (float_ltb _ (Fin 0.5));
    [split; [done | destruct t; simpl; intros; (lia || congruence)] |].
  destruct (float_ltb _ (Fin 0.8));
    [split; [done | destruct t; simpl; intros; (lia || congruence)] |].
  split; [done | destruct t; simpl; intros; (lia || congruence)].
Qed.

(** K3LR, logged on 40 m, spotted 0.05 kHz from the receiver: already
    worked wins over the pass band; an unlogged call there is in the pass
    band. *)
Lemma spot_style_worked_in_passband :
  spot_style worked_k3lr (Fin 7030) "K3LR" (Fin 7030.05) "40"
    = "bold on color(88)"
  ∧ spot_style worked_k3lr (Fin 7030) "W1AW" (Fin 7030.05) "40"
    = "bold on blue"
  ∧ spot_style worked_k3lr (Fin 7030) "K3LR" (Fin 7030.05) "20"
    = "bold on blue".
Proof. repeat split; vm_compute; reflexivity. Qed.

(** ** C9 and C7: [prune_oldest_spot] *)

Lemma fetch_oldest_None (db : table) : fetch_oldest db = None ↔ db = [].
Proof.
  destruct db as [|row rest]; [done|]. simpl.
  destruct (fetch_oldest rest); [case_match|]; done.
Qed.

Lemma fetch_oldest_Some (db : table) (oldest : Spot.t) :
  fetch_oldest db = Some oldest →
  oldest ∈ db
  ∧ ∀ row, row ∈ db → Spot.date_time oldest <= Spot.date_time row.
Proof.
  revert oldest. induction db as [|first rest IH]; intros oldest; [done|].
  simpl. destruct (fetch_oldest rest) as [other|] eqn:Hrest.
  - destruct (IH other eq_refl) as [Hin Hmin].
    destruct (Z.ltb_spec (Spot.date_time other) (Spot.date_time first));
      intros [= <-]; (split; [rewrite elem_of_cons; auto|]);
      intros row [->|Hrow]%elem_of_cons; try lia;
      specialize (Hmin row Hrow); lia.
  - apply fetch_oldest_None in Hrest as ->. intros [= <-].
    split; [apply list_elem_of_here|]. intros row Hrow.
    apply list_elem_of_singleton in Hrow as ->. lia.
Qed.

(** C9.  [prune_oldest_spot] raises (the unpacking of [None] is a
    [TypeError]) exactly on the empty table, and returns exactly on a
    table with at least one row, which then loses a row. *)
Theorem prune_oldest_spot_raises_iff_empty (db : table) :
  (prune_oldest_spot db = Raise TypeError ↔ db = [])
  ∧ ((∃ db', prune_oldest_spot db = Ok db' ∧ length db' < length db)%nat
     ↔ db ≠ []).
Proof.
  unfold prune_oldest_spot.
  destruct (fetch_oldest db) as [oldest|] eqn:Hfetch.
  - assert (db ≠ []) as Hne.
    { intros ->. discriminate Hfetch. }
    apply fetch_oldest_Some in Hfetch as [Hin _].
    split; [split; [done | by intros ?] |].
    split; [done|]. intros _. eexists. split; [reflexivity|].
    apply (length_filter_lt _ _ oldest); [done|]. by intros ?.
  - apply fetch_oldest_None in Hfetch as ->.
    split; [done|]. split; [intros (? & [=] & _) | done].
Qed.

Lemma filter_all {A} (P : A → Prop) `{!∀ x, Decision (P x)} (l : list A) :
  Forall P l → filter P l = l.
Proof.
  induction 1 as [|x l Hx _ IH]; [done|].
  by rewrite filter_cons_True, IH.
Qed.

Lemma filter_none {A} (P : A → Prop) `{!∀ x, Decision (P x)} (l : list A) :
  Forall (λ x, ¬ P x) l → filter P l = [].
Proof.
  induction 1 as [|x l Hx _ IH]; [done|].
  by rewrite filter_cons_False, IH.
Qed.

(** Deleting by the id of a row of a keyed table deletes that row alone. *)
Lemma delete_by_id (before after : table) (victim : Spot.t) :
  keyed (before ++ victim :: after) →
  filter (λ row, Spot.id row ≠ Spot.id victim) (before ++ victim :: after)
  = before ++ after.
Proof.
  unfold keyed. rewrite fmap_app, fmap_cons.
  intros Hkey. apply NoDup_app in Hkey as (_ & Hbefore & Hrest).
  apply NoDup_cons in Hrest as [Hafter _].
  rewrite filter_app, filter_cons_False by (by intros ?).
  rewrite !filter_all; [done | |].
  - apply Forall_forall. intros row Hrow Heq. apply Hafter.
    rewrite <- Heq. by apply list_elem_of_fmap_2.
  - apply Forall_forall. intros row Hrow Heq.
    apply (Hbefore (Spot.id row)); [by apply list_elem_of_fmap_2|].
    rewrite Heq. apply list_elem_of_here.
Qed.

(** C7.  On a table with at least one row, [prune_oldest_spot] removes
    one row and leaves every other row as it was and where it was; the row
    removed has the least [date_time] of the whole table, whatever its
    band and frequency. *)
Theorem prune_oldest_spot_removes_oldest (db : table) :
  db ≠ [] → keyed db →
  ∃ before oldest after,
    db = before ++ oldest :: after
    ∧ prune_oldest_spot db = Ok (before ++ after)
    ∧ ∀ row, row ∈ db → Spot.date_time oldest <= Spot.date_time row.
Proof.
  intros Hne Hkey. unfold prune_oldest_spot.
  destruct (fetch_oldest db) as [oldest|] eqn:Hfetch;
    [| by apply fetch_oldest_None in Hfetch].
  apply fetch_oldest_Some in Hfetch as [Hin Hmin].
  apply list_elem_of_split in Hin as (before & after & ->).
  exists before, oldest, after.
  by rewrite delete_by_id.
Qed.

Lemma prune_oldest_spot_removes_oldest_witness :
  ∃ before oldest after,
    three_spots = before ++ oldest :: after
    ∧ prune_oldest_spot three_spots = Ok (before ++ after)
    ∧ ∀ row, row ∈ three_spots →
        Spot.date_time oldest <= Spot.date_time row.
Proof.
  apply (prune_oldest_spot_removes_oldest three_spots).
  - discriminate.
  - unfold keyed, three_spots. simpl.
    repeat (apply NoDup_cons_2;
            [rewrite ?elem_of_cons, elem_of_nil; intros H; intuition discriminate|]).
    apply NoDup_nil_2.
Defined.

(** The sample table loses its 20 m row, the oldest. *)
Lemma prune_three_spots :
  bind (prune_oldest_spot three_spots)
       (λ db, Ok (map Spot.callsign db)) = Ok ["K3LR"; "N0CALL"].
Proof. reflexivity. Qed.

(** ** C1: one row per callsign *)

Lemma delete_old_distinct (now spot_to_old : Z) (db : table) :
  distinct db → distinct (delete_old now spot_to_old db).
Proof.
  unfold distinct, delete_old. intros Hd.
  apply (sublist_NoDup _ (Spot.callsign <$> db)); [exact Hd|].
  apply fmap_sublist, sublist_filter.
Qed.

Lemma delete_old_keyed (now spot_to_old : Z) (db : table) :
  keyed db → keyed (delete_old now spot_to_old db).
Proof.
  unfold keyed, delete_old. intros Hk.
  apply (sublist_NoDup _ (Spot.id <$> db)); [exact Hk|].
  apply fmap_sublist, sublist_filter.
Qed.

Lemma update_spot_callsign (now : Z) (callsign : string) (freq : Q)
    (band : string) (row : Spot.t) :
  Spot.callsign (update_spot now callsign freq band row) = Spot.callsign row.
Proof. unfold update_spot. by case_decide. Qed.

Lemma update_spot_id (now : Z) (callsign : string) (freq : Q)
    (band : string) (row : Spot.t) :
  Spot.id (update_spot now callsign freq band row) = Spot.id row.
Proof. unfold update_spot. by case_decide. Qed.

Lemma update_spot_other (now : Z) (callsign : string) (freq : Q)
    (band : string) (db : table) :
  Forall (λ row, Spot.callsign row ≠ callsign) db →
  update_spot now callsign freq band <$> db = db.
Proof.
  induction 1 as [|row db Hrow _ IH]; [done|].
  rewrite fmap_cons, IH. unfold update_spot. by rewrite decide_False.
Qed.

(** No row with the callsign: the count of the [select] is zero. *)
Lemma count_zero (callsign : string) (db : table) :
  length (filter (λ row, Spot.callsign row = callsign) db) = 0%nat ↔
  callsign ∉ Spot.callsign <$> db.
Proof.
  rewrite length_zero_iff_nil. split.
  - intros Hnil (row & -> & Hrow)%list_elem_of_fmap.
    by apply (filter_nil_not_elem_of _ _ row Hnil).
  - intros Hnot. apply filter_none, Forall_forall. intros row Hrow Heq.
    apply Hnot. rewrite <- Heq. by apply list_elem_of_fmap_2.
Qed.

(** In a table of distinct callsigns a row stands alone for its call. *)
Lemma distinct_split (db : table) (old : Spot.t) :
  distinct db → old ∈ db →
  ∃ before after,
    db = before ++ old :: after
    ∧ Forall (λ row, Spot.callsign row ≠ Spot.callsign old) before
    ∧ Forall (λ row, Spot.callsign row ≠ Spot.callsign old) after.
Proof.
  intros Hd (before & after & ->)%list_elem_of_split.
  exists before, after. split; [done|].
  unfold distinct in Hd. rewrite fmap_app, fmap_cons in Hd.
  apply NoDup_app in Hd as (_ & Hbefore & Hrest).
  apply NoDup_cons in Hrest as [Hafter _].
  split; apply Forall_forall; intros row Hrow Heq.
  - apply (Hbefore (Spot.callsign row)); [by apply list_elem_of_fmap_2|].
    rewrite Heq. apply list_elem_of_here.
  - apply Hafter. rewrite <- Heq. by apply list_elem_of_fmap_2.
Qed.

Lemma add_spot_distinct (now : Z) (callsign : string) (freq : Q)
    (band : string) (spot_to_old : Z) (db : table) :
  distinct db → distinct (add_spot now callsign freq band spot_to_old db).
Proof.
  intros Hd%(delete_old_distinct now spot_to_old). unfold add_spot.
  case_decide as Hcount; unfold distinct in *.
  - apply count_zero in Hcount.
    rewrite fmap_app. apply NoDup_app. split; [done|]. split.
    + intros c Hc ->%list_elem_of_singleton. done.
    + apply NoDup_singleton.
  - rewrite <- list_fmap_compose.
    erewrite list_fmap_ext; [exact Hd|].
    intros i row _. apply update_spot_callsign.
Qed.

Lemma next_id_fresh (db : table) : next_id db ∉ Spot.id <$> db.
Proof.
  assert (∀ z, z ∈ Spot.id <$> db → z < next_id db) as Hlt.
  { unfold next_id. induction db as [|row rest IH]; intros z Hz.
    - by apply elem_of_nil in Hz.
    - rewrite fmap_cons in *. cbn [foldr].
      apply elem_of_cons in Hz as [->|Hz]; [lia|].
      specialize (IH z Hz). lia. }
  intros Hin. specialize (Hlt _ Hin). lia.
Qed.

Lemma add_spot_keyed (now : Z) (callsign : string) (freq : Q)
    (band : string) (spot_to_old : Z) (db : table) :
  keyed db → keyed (add_spot now callsign freq band spot_to_old db).
Proof.
  intros Hk%(delete_old_keyed now spot_to_old). unfold add_spot.
  case_decide as Hcount; unfold keyed in *.
  - rewrite fmap_app. apply NoDup_app. split; [done|]. split.
    + intros i Hi ->%list_elem_of_singleton. by apply next_id_fresh in Hi.
    + apply NoDup_singleton.
  - rewrite <- list_fmap_compose.
    erewrite list_fmap_ext; [exact Hk|].
    intros i row _. apply update_spot_id.
Qed.

(** A first report of a callsign appends a row. *)
Lemma add_spot_insert (now : Z) (callsign : string) (freq : Q)
    (band : string) (spot_to_old : Z) (db : table) :
  let live := delete_old now spot_to_old db in
  callsign ∉ Spot.callsign <$> live →
  add_spot now callsign freq band spot_to_old db =
    live ++ [ {| Spot.id := next_id live; Spot.callsign := callsign;
                 Spot.date_time := now; Spot.frequency := freq;
                 Spot.band := band |} ].
Proof.
  intros live Hnew. unfold add_spot. fold live.
  apply count_zero in Hnew. by rewrite decide_True.
Qed.

(** A further report of a callsign writes over its row, where it is, and
    leaves the other rows as they were. *)
Lemma add_spot_update (now : Z) (callsign : string) (freq : Q)
    (band : string) (spot_to_old : Z) (db : table) (old : Spot.t) :
  let live := delete_old now spot_to_old db in
  distinct db → old ∈ live → Spot.callsign old = callsign →
  ∃ before after,
    live = before ++ old :: after
    ∧ add_spot now callsign freq band spot_to_old db =
        before ++ overwrite now freq band old :: after
    ∧ Forall (λ row, Spot.callsign row ≠ callsign) (before ++ after).
Proof.
  intros live Hd%(delete_old_distinct now spot_to_old) Hold Hcall.
  fold live in Hd.
  destruct (distinct_split live old Hd Hold)
    as (before & after & Hlive & Hbefore & Hafter).
  rewrite Hcall in Hbefore, Hafter.
  exists before, after. split; [done|]. split; [|by apply Forall_app].
  unfold add_spot. fold live. rewrite decide_False.
  - rewrite Hlive, fmap_app, fmap_cons, !update_spot_other by done.
    unfold update_spot. by rewrite decide_True.
  - rewrite count_zero. intros Hnot. apply Hnot.
    rewrite <- Hcall. by apply list_elem_of_fmap_2.
Qed.

(** After [add_spot] the callsign has one row, with the values of the
    call. *)
Lemma add_spot_single (now : Z) (callsign : string) (freq : Q)
    (band : string) (spot_to_old : Z) (db : table) :
  distinct db →
  ∃ row,
    filter (λ r, Spot.callsign r = callsign)
           (add_spot now callsign freq band spot_to_old db) = [row]
    ∧ Spot.callsign row = callsign ∧ Spot.frequency row = freq
    ∧ Spot.band row = band ∧ Spot.date_time row = now.
Proof.
  intros Hd. set (live := delete_old now spot_to_old db).
  destruct (decide (callsign ∈ Spot.callsign <$> live)) as [Hin|Hnew].
  - apply list_elem_of_fmap in Hin as (old & Hcall & Hold).
    destruct (add_spot_update now callsign freq band spot_to_old db old
                Hd Hold (eq_sym Hcall))
      as (before & after & _ & -> & [Hb Ha]%Forall_app).
    exists (overwrite now freq band old).
    rewrite filter_app, filter_cons_True by (by simpl).
    rewrite !filter_none by (eapply Forall_impl; [eassumption|]; by intros ?).
    by repeat split.
  - rewrite (add_spot_insert now callsign freq band spot_to_old db Hnew).
    fold live. eexists.
    rewrite filter_app, filter_none.
    + rewrite filter_cons_True by done. by repeat split.
    + apply Forall_forall. intros row Hrow Heq. apply Hnew.
      rewrite <- Heq. by apply list_elem_of_fmap_2.
Qed.

Lemma upserts_snoc (us : list upsert) (u : upsert) (db : table) :
  upserts (us ++ [u]) db = apply_upsert (upserts us db) u.
Proof. unfold upserts. by rewrite foldl_app. Qed.

(** Every table the ingest loop builds from an empty one has distinct
    callsigns and distinct ids. *)
Lemma upserts_invariant (us : list upsert) :
  distinct (upserts us []) ∧ keyed (upserts us []).
Proof.
  induction us as [|u us [IHd IHk]] using rev_ind.
  - split; apply NoDup_nil_2.
  - rewrite upserts_snoc. split.
    + by apply add_spot_distinct.
    + by apply add_spot_keyed.
Qed.

(** C1.  After any sequence of upserts on an empty table, each callsign
    has at most one row.  The callsign of the last upsert has exactly one
    row, carrying the frequency, band and time of that call; if a live
    row for the callsign was there, it is that row, overwritten where it
    stood, and no row is added — whatever band the old row had.  The
    callsigns and bands are text without an apostrophe, as the feed
    pattern and [getband] produce. *)
Theorem add_spot_one_record_per_callsign (us : list upsert) (u : upsert) :
  Forall (λ v, plain (up_callsign v) ∧ plain (up_band v)) (us ++ [u]) →
  let live := delete_old (at_time u) (up_ttl u) (upserts us []) in
  let db := upserts (us ++ [u]) [] in
  distinct db
  ∧ (∃ row,
       filter (λ r, Spot.callsign r = up_callsign u) db = [row]
       ∧ Spot.frequency row = up_freq u
       ∧ Spot.band row = up_band u
       ∧ Spot.date_time row = at_time u)
  ∧ (∀ old, old ∈ live → Spot.callsign old = up_callsign u →
       ∃ before after,
         live = before ++ old :: after
         ∧ db = before
                ++ overwrite (at_time u) (up_freq u) (up_band u) old
                :: after).
Proof.
  intros _ live db. subst db. rewrite upserts_snoc.
  destruct (upserts_invariant us) as [Hd _].
  unfold apply_upsert. split; [|split].
  - by apply add_spot_distinct.
  - destruct (add_spot_single (at_time u) (up_callsign u) (up_freq u)
                (up_band u) (up_ttl u) _ Hd)
      as (row & Hrow & _ & Hf & Hb & Ht).
    by exists row.
  - intros old Hold Hcall.
    destruct (add_spot_update (at_time u) (up_callsign u) (up_freq u)
                (up_band u) (up_ttl u) _ old Hd Hold Hcall)
      as (before & after & Hlive & Hdb & _).
    by exists before, after.
Qed.

Lemma plain_n0call : plain "N0CALL" ∧ plain "40".
Proof.
  split; unfold plain; simpl; rewrite !elem_of_cons, elem_of_nil;
    intros H; decompose [or] H; (discriminate || assumption).
Defined.

Lemma add_spot_one_record_per_callsign_witness :
  let live := delete_old 1005 600 (upserts [n0call_7030] []) in
  let db := upserts [n0call_7030; n0call_7200] [] in
  distinct db
  ∧ (∃ row,
       filter (λ r, Spot.callsign r = "N0CALL") db = [row]
       ∧ Spot.frequency row = 7200%Q
       ∧ Spot.band row = "40"
       ∧ Spot.date_time row = 1005)
  ∧ (∀ old, old ∈ live → Spot.callsign old = "N0CALL" →
       ∃ before after,
         live = before ++ old :: after
         ∧ db = before ++ overwrite 1005 7200 "40" old :: after).
Proof.
  apply (add_spot_one_record_per_callsign [n0call_7030] n0call_7200).
  constructor; [exact plain_n0call|].
  constructor; [exact plain_n0call|]. constructor.
Defined.

(** The scenario of section 8, and the same with the second report on
    another band: one row, with the values of the second call. *)
Lemma n0call_scenario :
  upserts [n0call_7030; n0call_7200] [] =
    [ {| Spot.id := 1; Spot.callsign := "N0CALL"; Spot.date_time := 1005;
         Spot.frequency := 7200; Spot.band := "40" |} ]
  ∧ add_spot 1005 "N0CALL" 14047 "20" 600 (upserts [n0call_7030] []) =
    [ {| Spot.id := 1; Spot.callsign := "N0CALL"; Spot.date_time := 1005;
         Spot.frequency := 14047; Spot.band := "20" |} ].
Proof. split; vm_compute; reflexivity. Qed.

(** ** C2 and C6: [gridtolatlon] *)

(** C2 fails in the code.  A code of one character raises [IndexError];
    a code of three characters, or of nine, decodes to a point that is
    not (0, 0). *)
Theorem gridtolatlon_malformed :
  gridtolatlon "A" = Raise IndexError
  ∧ gridtolatlon "AAA" = Ok ((-90)%Q, (-180)%Q)
  ∧ ∃ lat lon, gridtolatlon "DM13AT00A" = Ok (lat, lon)
               ∧ (33 < lat)%Q ∧ (lon < -117)%Q.
Proof.
  split; [reflexivity|]. split; [reflexivity|].
  eexists _, _. split; [vm_compute; reflexivity|]. split; reflexivity.
Qed.

(** C6 fails in the code.  The valid code "RR99XX99" decodes to a
    latitude above 90 and a longitude above 180. *)
Theorem gridtolatlon_out_of_range :
  Maidenhead.valid "RR99XX99" = true
  ∧ ∃ lat lon, gridtolatlon "RR99XX99" = Ok (lat, lon)
               ∧ (90 < lat)%Q ∧ (180 < lon)%Q.
Proof.
  split; [reflexivity|].
  eexists _, _. split; [vm_compute; reflexivity|]. split; reflexivity.
Qed.

(** What the character classes of a valid code give to the decoder. *)
Lemma letter_upto_spec (last : nat) (c : ascii) :
  Maidenhead.letter_upto last c = true →
  Text.is_space c = false
  ∧ 65 <= Text.ord (Text.upper c) <= Z.of_nat last.
Proof.
  unfold Maidenhead.letter_upto, Text.ord.
  rewrite andb_true_iff, !Nat.leb_le. intros [Hlo Hhi].
  split; [|lia]. revert Hlo. clear Hhi.
  destruct c as [[] [] [] [] [] [] [] []]; vm_compute; (reflexivity || lia).
Qed.

Lemma is_digit_spec (c : ascii) :
  FloatText.is_digit c = true →
  Text.is_space c = false ∧ Text.upper c = c ∧ 48 <= Text.ord c <= 57.
Proof.
  destruct c as [[] [] [] [] [] [] [] []]; vm_compute;
    intros; try discriminate; repeat split; congruence.
Qed.

Ltac whole_bounds :=
  change (-90)%Q with (inject_Z (-90));
  change 90%Q with (inject_Z 90);
  change (-180)%Q with (inject_Z (-180));
  change 180%Q with (inject_Z 180).

(** Valid codes of 2, 4 and 6 characters decode inside the coordinate
    space; the excess of C6 comes from the fourth pair alone. *)
Lemma gridtolatlon_in_range (code : string) :
  Maidenhead.valid code = true →
  (length (list_ascii_of_string code) <= 6)%nat →
  ∃ lat lon,
    gridtolatlon code = Ok (lat, lon)
    ∧ (-90 <= lat)%Q ∧ (lat <= 90)%Q ∧ (-180 <= lon)%Q ∧ (lon <= 180)%Q.
Proof.
  unfold Maidenhead.valid, gridtolatlon, Maidenhead.field,
    Maidenhead.subsquare.
  destruct (list_ascii_of_string code)
    as [|f1 [|f2 [|d1 [|d2 [|s1 [|s2 [|e1 [|e2 [|]]]]]]]]];
    try discriminate; rewrite ?andb_true_iff; intros Hvalid Hlen;
    try (simpl in Hlen; lia).
  - destruct Hvalid as [[Hs1 H1]%letter_upto_spec [Hs2 H2]%letter_upto_spec].
    unfold Text.strip. cbn [Text.lstrip]. rewrite Hs1.
    cbn [rev app Text.lstrip]. rewrite Hs2. cbn.
    eexists _, _. split; [reflexivity|].
    whole_bounds. rewrite <- !(Zle_Qle _ _). lia.
  - destruct Hvalid as [[[[Hs1 H1]%letter_upto_spec [Hs2 H2]%letter_upto_spec]
                           (_ & U1 & D1)%is_digit_spec]
                          (Hs4 & U2 & D2)%is_digit_spec].
    unfold Text.strip. cbn [Text.lstrip]. rewrite Hs1.
    cbn [rev app Text.lstrip]. rewrite Hs4. cbn. rewrite U1, U2.
    eexists _, _. split; [reflexivity|].
    whole_bounds. rewrite <- !inject_Z_plus, <- !(Zle_Qle _ _). lia.
  - destruct Hvalid as [[[[[[Hs1 H1]%letter_upto_spec
                              [Hs2 H2]%letter_upto_spec]
                             (_ & U1 & D1)%is_digit_spec]
                            (_ & U2 & D2)%is_digit_spec]
                           [_ H5]%letter_upto_spec]
                          [Hs6 H6]%letter_upto_spec].
    unfold Text.strip. cbn [Text.lstrip]. rewrite Hs1.
    cbn [rev app Text.lstrip]. rewrite Hs6. cbn. rewrite U1, U2.
    eexists _, _. split; [reflexivity|].
    rewrite <- !inject_Z_plus.
    set (lat0 := (Text.ord (Text.upper f2) - 65) * 10 - 90 + (Text.ord d2 - 48)).
    set (lon0 := (Text.ord (Text.upper f1) - 65) * 20 - 180
                 + (Text.ord d1 - 48) * 2).
    set (a := Text.ord (Text.upper s1) - 65).
    set (b := Text.ord (Text.upper s2) - 65).
    assert (inject_Z (-90) <= inject_Z lat0 <= inject_Z 89)%Q
      by (rewrite <- !Zle_Qle; lia).
    assert (inject_Z (-180) <= inject_Z lon0 <= inject_Z 178)%Q
      by (rewrite <- !Zle_Qle; lia).
    assert (inject_Z 0 <= inject_Z a <= inject_Z 23)%Q
      by (rewrite <- !Zle_Qle; lia).
    assert (inject_Z 0 <= inject_Z b <= inject_Z 23)%Q
      by (rewrite <- !Zle_Qle; lia).
    change (inject_Z (-90)) with (-90)%Q in *.
    change (inject_Z (-180)) with (-180)%Q in *.
    change (inject_Z 89) with 89%Q in *.
    change (inject_Z 178) with 178%Q in *.
    change (inject_Z 0) with 0%Q in *.
    change (inject_Z 23) with 23%Q in *.
    revert H H0 H3 H4.
    generalize (inject_Z lat0), (inject_Z lon0), (inject_Z a), (inject_Z b).
    unfold Qdiv.
    change (/ 12)%Q with (1 # 12)%Q. change (/ 24)%Q with (1 # 24)%Q.
    change (/ 48)%Q with (1 # 48)%Q.
    intros; repeat split; lra.
Qed.

(** [gridtolatlon] raises on codes of one character, blanks aside, and on
    no other. *)
Lemma gridtolatlon_raises (code : string) (e : exn) :
  gridtolatlon code = Raise e ↔
  length (Text.strip (list_ascii_of_string code)) = 1%nat ∧ e = IndexError.
Proof.
  unfold gridtolatlon. cbv zeta.
  rewrite <- (length_map Text.upper (Text.strip (list_ascii_of_string code))).
  generalize (map Text.upper (Text.strip (list_ascii_of_string code))).
  intros l.
  destruct l as [|c0 [|c1 [|c2 [|c3 [|c4 [|c5 [|c6 [|c7 [|c8 rest]]]]]]]]];
    try (cbn -[Qplus Qmult Qdiv inject_Z Text.ord];
         split; [intros [=] | intros [[=] _]]; fail).
  - cbn. split; [by intros [= <-] | by intros [_ ->]].
  - set (N := Z.of_nat (length (c0 :: c1 :: c2 :: c3 :: c4 :: c5 :: c6 :: c7
                                  :: c8 :: rest))).
    assert (9 <= N) as HN by (subst N; simpl length; lia).
    assert (length (c0 :: c1 :: c2 :: c3 :: c4 :: c5 :: c6 :: c7
                       :: c8 :: rest) ≠ 1%nat) as Hlen by (simpl; lia).
    clearbody N.
    replace (8 >=? N) with false by (symmetry; rewrite Z.geb_leb; lia).
    replace (N >=? 4) with true by (symmetry; rewrite Z.geb_leb; lia).
    replace (N >=? 6) with true by (symmetry; rewrite Z.geb_leb; lia).
    replace (N >=? 8) with true by (symmetry; rewrite Z.geb_leb; lia).
    destruct (N mod 2 =? 0);
      cbn -[Qplus Qmult Qdiv inject_Z Text.ord];
      (split; [intros [=] | by intros [? _]]).
Qed.

(** The length guard returns (0, 0) on the empty code and on the even
    lengths above 8, and on these alone it is taken. *)
Lemma gridtolatlon_guard (code : string) :
  let n := length (Text.strip (list_ascii_of_string code)) in
  n = 0%nat ∨ ((8 < n)%nat ∧ Z.of_nat n mod 2 = 0) →
  gridtolatlon code = Ok (0%Q, 0%Q).
Proof.
  intros n Hn. unfold gridtolatlon. cbv zeta.
  rewrite length_map. fold n.
  replace (negb ((8 >=? Z.of_nat n) && (Z.of_nat n >=? 2))
           && (Z.of_nat n mod 2 =? 0)) with true; [done|].
  symmetry. apply andb_true_iff. split.
  - apply negb_true_iff, andb_false_iff. rewrite !Z.geb_leb, !Z.leb_gt. lia.
  - apply Z.eqb_eq. destruct Hn as [-> | [_ ?]]; done.
Qed.

(** ** The store invariants under every order of the operations *)



(** ** More on [add_spot] *)








(** ** [getspots] and the render pass *)

#[local] Instance by_frequency_total : Total by_frequency.
Proof.
  intros r1 r2. unfold by_frequency.
  destruct (Qlt_le_dec (Spot.frequency r2) (Spot.frequency r1)) as [H|H];
    [right; by apply Qlt_le_weak | by left].
Qed.

#[local] Instance by_frequency_trans : Transitive by_frequency.
Proof. intros r1 r2 r3. unfold by_frequency. apply Qle_trans. Qed.


(** On a keyed table with a row, the eviction returns the table without
    one of its oldest rows. *)
Lemma prune_split (db : table) :
  keyed db → db ≠ [] →
  ∃ before oldest after,
    db = before ++ oldest :: after
    ∧ prune_oldest_spot db = Ok (before ++ after)
    ∧ ∀ row, row ∈ db → Spot.date_time oldest <= Spot.date_time row.
Proof.
  intros Hkey Hne. unfold prune_oldest_spot.
  destruct (fetch_oldest db) as [oldest|] eqn:Hfetch;
    [| by apply fetch_oldest_None in Hfetch].
  apply fetch_oldest_Some in Hfetch as [Hin Hmin].
  apply list_elem_of_split in Hin as (before & after & ->).
  exists before, oldest, after. by rewrite delete_by_id.
Qed.

(** The loop over the rows listed: as many rows are printed as lines are
    left, one eviction is made for each further row, none of them raises,
    and every row evicted is at most as recent as every row kept. *)
Lemma showspots_rows_spec (height : Z)
    (CONTACTLIST : gmap string (list string)) (the_vfo : pyfloat)
    (spots : list (Spot.t * Z)) (displayed : Z) (db : table) :
  keyed db → (length spots <= length db)%nat →
  let room := Z.to_nat (height - displayed) in
  ∃ db',
    showspots_rows height CONTACTLIST the_vfo spots displayed db
    = Ok (shown_row CONTACTLIST the_vfo <$> take room spots, db')
    ∧ length db' = (length db - (length spots - room))%nat
    ∧ db' `sublist_of` db
    ∧ ∀ kept gone, kept ∈ db' → gone ∈ db → gone ∉ db' →
        Spot.date_time gone <= Spot.date_time kept.
Proof.
  revert displayed db.
  induction spots as [|spot later IH]; intros displayed db Hkey Hlen room.
  - exists db. simpl. rewrite take_nil. repeat split; [lia | done |].
    intros kept gone _ Hgone Hnot. by destruct Hnot.
  - simpl in Hlen. cbn [showspots_rows].
    destruct (Z.gtb_spec (displayed + 1) height) as [Hfull|Hroom].
    + assert (room = 0%nat) as Hroom0 by (subst room; lia).
      destruct (prune_split db Hkey) as (before & oldest & after & -> & -> & Hold).
      { intros ->. simpl in Hlen. lia. }
      cbn [mbind result_bind bind].
      destruct (IH (displayed + 1) (before ++ after)) as (db' & -> & Hl & Hsub & Hnew).
      { unfold keyed in *. rewrite fmap_app, fmap_cons in Hkey.
        rewrite fmap_app. apply NoDup_app in Hkey as (? & Hdis & [_ ?]%NoDup_cons).
        apply NoDup_app. repeat split; [done | | done].
        intros i Hi Hi'. apply (Hdis i Hi). by apply list_elem_of_further. }
      { rewrite length_app in *. simpl in Hlen. lia. }
      exists db'. rewrite Hroom0, !take_0.
      replace (Z.to_nat (height - (displayed + 1))) with 0%nat by lia.
      rewrite take_0. split; [done|].
      assert (before ++ after `sublist_of` before ++ oldest :: after) as Hsub1.
      { apply sublist_app; [done | by apply sublist_cons]. }
      split; [|split].
      * rewrite Hl, !length_app. simpl. lia.
      * by etrans.
      * intros kept gone Hkept Hgone Hnot.
        assert (kept ∈ before ++ after) as Hkept1.
        { eapply sublist_subseteq; eassumption. } 
        apply elem_of_app in Hgone as [Hin|[->|Hin]%elem_of_cons].
        -- apply Hnew; [done | apply elem_of_app; auto | done].
        -- apply Hold. eapply sublist_subseteq; eassumption.
        -- apply Hnew; [done | apply elem_of_app; auto | done].
    + destruct (IH (displayed + 1) db Hkey) as (db' & -> & Hl & Hsub & Hnew);
        [lia|].
      exists db'. cbn [mbind result_bind bind].
      assert (room = S (Z.to_nat (height - (displayed + 1)))) as ->
        by (subst room; lia).
      rewrite firstn_cons, fmap_cons. split; [done|].
      split; [|done]. rewrite Hl. simpl. lia.
Qed.

Lemma length_getspots (now : Z) (db : table) :
  length (getspots now db) = length db.
Proof.
  unfold getspots. rewrite length_fmap.
  apply Permutation_length, merge_sort_Permutation.
Qed.

Lemma three_spots_keyed : keyed three_spots.
Proof.
  unfold keyed, three_spots. simpl.
  repeat (apply NoDup_cons_2;
          [rewrite ?elem_of_cons, elem_of_nil; intros H;
           intuition discriminate|]).
  apply NoDup_nil_2.
Defined.

(** A render pass on a keyed table, alone on the store, does not raise.
    It prints the first [height - 2] rows of the frequency-ordered list
    and evicts one row for each row beyond, so that as many rows are left
    as were printed: the smaller of the table's size and [height - 2]. *)
Theorem showspots_pass_counts (height : Z) (contacts : list (string * string))
    (the_vfo : pyfloat) (now : Z) (db : table) :
  keyed db →
  let visible := Z.to_nat (height - 2) in
  ∃ db',
    showspots_pass height contacts the_vfo now db
    = Ok (shown_row (updatecontactlist contacts) the_vfo
            <$> take visible (getspots now db), db')
    ∧ length (take visible (getspots now db)) = (length db `min` visible)%nat
    ∧ length db' = (length db `min` visible)%nat.
Proof.
  intros Hkey visible. unfold showspots_pass.
  destruct (showspots_rows_spec height (updatecontactlist contacts) the_vfo
              (getspots now db) 2 db Hkey)
    as (db' & Hrun & Hlen & _); [by rewrite length_getspots|].
  exists db'. fold visible in Hrun, Hlen. split; [done|].
  rewrite length_take, length_getspots in *. lia.
Qed.

Lemma showspots_pass_counts_witness :
  ∃ db',
    showspots_pass 4 [("40", "K3LR")] (Fin 7030) 200 three_spots
    = Ok (shown_row (updatecontactlist [("40", "K3LR")]) (Fin 7030)
            <$> take 2 (getspots 200 three_spots), db')
    ∧ length (take 2 (getspots 200 three_spots)) = 2%nat
    ∧ length db' = 2%nat.
Proof.
  exact (showspots_pass_counts 4 [("40", "K3LR")] (Fin 7030) 200 three_spots
           three_spots_keyed).
Defined.

(** The rows a render pass leaves are rows of the table before it, and
    each row it evicted is at most as recent as each row it left. *)
Theorem showspots_pass_keeps_newest (height : Z)
    (contacts : list (string * string)) (the_vfo : pyfloat) (now : Z)
    (db db' : table) (rows : list shown) :
  keyed db →
  showspots_pass height contacts the_vfo now db = Ok (rows, db') →
  db' `sublist_of` db
  ∧ ∀ kept gone, kept ∈ db' → gone ∈ db → gone ∉ db' →
      Spot.date_time gone <= Spot.date_time kept.
Proof.
  intros Hkey. unfold showspots_pass.
  destruct (showspots_rows_spec height (updatecontactlist contacts) the_vfo
              (getspots now db) 2 db Hkey)
    as (db1 & -> & _ & Hsub & Hnew); [by rewrite length_getspots|].
  by intros [= _ <-].
Qed.

Lemma showspots_pass_keeps_newest_witness :
  [ {| Spot.id := 1; Spot.callsign := "K3LR"; Spot.date_time := 120;
       Spot.frequency := 7030; Spot.band := "40" |};
    {| Spot.id := 3; Spot.callsign := "N0CALL"; Spot.date_time := 130;
       Spot.frequency := 7012; Spot.band := "40" |} ]
  `sublist_of` three_spots.
Proof.
  refine (proj1 (showspots_pass_keeps_newest 4 [("40", "K3LR")] (Fin 7030)
                   200 three_spots _ _ three_spots_keyed _)).
  vm_compute. reflexivity.
Defined.

(** ** The contact list *)

Lemma updatecontactlist_from (cl : gmap string (list string))
    (contacts : list (string * string)) (band callsign : string) :
  let step := λ (cl : gmap string (list string)) (contact : string * string),
    let '(band, callsign) := contact in
    match cl !! band with
    | Some worked => <[band := worked ++ [callsign]]> cl
    | None => <[band := [callsign]]> cl
    end in
  callsign ∈ default [] (foldl step cl contacts !! band)
  ↔ callsign ∈ default [] (cl !! band) ∨ (band, callsign) ∈ contacts.
Proof.
  intros step. revert cl.
  induction contacts as [|[b c] contacts IH]; intros cl.
  - simpl. rewrite elem_of_nil. tauto.
  - cbn [foldl]. rewrite IH, elem_of_cons. clear IH.
    assert (callsign ∈ default [] (step cl (b, c) !! band)
            ↔ callsign ∈ default [] (cl !! band) ∨ (band, callsign) = (b, c))
      as ->; [|tauto].
    unfold step. destruct (decide (b = band)) as [->|Hne].
    + destruct (cl !! band) as [worked|] eqn:Hcl;
        rewrite lookup_insert_eq; simpl.
      * rewrite elem_of_app, list_elem_of_singleton.
        split; (intros [?|?]; [by left | right; congruence]).
      * rewrite list_elem_of_singleton, elem_of_nil.
        split; [intros ->; by right | intros [[]|[= ->]]; done].
    + destruct (cl !! b) as [worked|]; rewrite lookup_insert_ne by done;
        (split; [by left | intros [?|[= ? ?]]; [done | congruence]]).
Qed.

(** A callsign counts as already worked on a band exactly when the
    contact log holds a contact with it on that band. *)
Theorem alreadyworked_iff_logged (contacts : list (string * string))
    (callsign band : string) :
  alreadyworked (updatecontactlist contacts) callsign band = true
  ↔ (band, callsign) ∈ contacts.
Proof.
  pose proof (updatecontactlist_from ∅ contacts band callsign) as Hfold.
  cbv zeta in Hfold. rewrite lookup_empty in Hfold. simpl in Hfold.
  rewrite elem_of_nil in Hfold.
  unfold alreadyworked, updatecontactlist.
  destruct (foldl _ ∅ contacts !! band) as [worked|]; simpl in Hfold.
  - rewrite bool_decide_eq_true. tauto.
  - rewrite elem_of_nil in Hfold. split; [done | tauto].
Qed.

(** ** Distance from the receiver *)

Lemma comparevfo_within_abs (the_vfo freq t : Q) :
  float_ltb (comparevfo (Fin the_vfo) (Fin freq)) (Fin t) = true
  ↔ (Qabs (freq - the_vfo) < t)%Q.
Proof.
  unfold comparevfo.
  destruct (float_ltb (Fin the_vfo) (Fin freq)) eqn:Hlt.
  - apply float_ltb_Fin in Hlt. unfold float_sub.
    rewrite float_ltb_Fin, Qabs_pos; [done | lra].
  - assert (freq <= the_vfo)%Q as Hle.
    { apply Qnot_lt_le. intros H%float_ltb_Fin. congruence. }
    unfold float_sub. rewrite float_ltb_Fin, Qabs_neg by lra.
    split; intros; lra.
Qed.


Lemma Qtrunc_below (q : Q) : 0 < Qtrunc q → (inject_Z (Qtrunc q) <= q)%Q.
Proof.
  destruct q as [n d]. unfold Qtrunc, Qle. simpl. intros Hpos.
  assert (0 <= n) as Hn.
  { destruct (Z_lt_le_dec n 0) as [Hneg|]; [|done].
    pose proof (Z.quot_le_mono n 0 (Z.pos d) ltac:(lia) ltac:(lia)) as H.
    rewrite Z.quot_0_l in H by lia. lia. }
  pose proof (Z.mul_quot_le n (Z.pos d) Hn ltac:(lia)). lia.
Qed.

Lemma band_of_hz_classified (k : Z) :
  band_of_hz (k * 1000) ≠ "0" → 1800 < k.
Proof.
  rewrite band_of_hz_khz. unfold band_table, find.
  repeat match goal with
  | |- context [ Z.ltb ?a ?b ] => destruct (Z.ltb_spec a b); try lia
  end; simpl; congruence.
Qed.

(** With [THE_VFO] at zero, the value [getvfo] stores when a poll fails,
    no spot that [getband] classifies is highlighted as near the receiver:
    its style is the default, or "already worked". *)
Theorem spot_style_vfo_zero (CONTACTLIST : gmap string (list string))
    (callsign band label : string) (q : Q) :
  getband (PyFloat (Fin q)) = Ok label → label ≠ "0" →
  spot_style CONTACTLIST (Fin 0) callsign (Fin q) band
  = if alreadyworked CONTACTLIST callsign band
    then "bold on color(88)" else "".
Proof.
  rewrite getband_finite. intros [= <-] Hk%band_of_hz_classified.
  assert (1800 < q)%Q as Hq.
  { pose proof (Qtrunc_below q ltac:(lia)) as Hle.
    assert (inject_Z 1800 < inject_Z (Qtrunc q))%Q by (by rewrite <- Zlt_Qlt).
    change (inject_Z 1800) with 1800%Q in *. lra. }
  unfold spot_style.
  assert (∀ t, (t <= 1)%Q →
            float_ltb (comparevfo (Fin 0) (Fin q)) (Fin t) = false) as Hfar.
  { intros t Ht. apply not_true_iff_false. rewrite comparevfo_within_abs.
    rewrite Qabs_pos by lra. lra. }
  rewrite !Hfar by lra.
  destruct (alreadyworked _ _ _); [done|].
  by destruct (inband (Fin q)).
Qed.

Lemma spot_style_vfo_zero_witness :
  spot_style ∅ (Fin 0) "W1AW" (Fin 7030) "40" = "".
Proof.
  exact (spot_style_vfo_zero ∅ "W1AW" "40" "40" 7030 eq_refl
           ltac:(discriminate)).
Defined.

(** ** The polling loop over several polls *)

(** [getvfo] goes through the polls one after the other until the first
    poll whose exception it does not handle: it ends there with that
    exception, [THE_VFO] keeps the value of the last poll before it, and
    the later polls are never made. *)
Theorem getvfo_stops_at_first_unhandled
    (good : list (result pyval)) (bad : result pyval)
    (later : list (result pyval)) (st : poll) (e : exn) :
  Forall (λ reply, ∃ vfo, getvfo_body reply = Ok vfo) good →
  getvfo_body bad = Raise e →
  getvfo (good ++ bad :: later) st
  = {| THE_VFO := THE_VFO (getvfo good st);
       passes := (passes st + length good)%nat;
       ended := Some e |}.
Proof.
  intros Hgood Hbad. revert st.
  induction Hgood as [|reply good [vfo Hreply] _ IH]; intros st.
  - simpl. rewrite Hbad. f_equal. lia.
  - cbn [app getvfo]. rewrite Hreply, IH. simpl. f_equal. lia.
Qed.

Lemma getvfo_stops_at_first_unhandled_witness :
  getvfo [Ok (PyStr "7030000"); Raise ConnectionRefusedError;
          Ok (PyStr "14025000")] idle
  = {| THE_VFO := Fin (7030000 / 1000); passes := 1;
       ended := Some ConnectionRefusedError |}.
Proof.
  refine (eq_trans
    (getvfo_stops_at_first_unhandled [Ok (PyStr "7030000")]
       (Raise ConnectionRefusedError) [Ok (PyStr "14025000")] idle
       ConnectionRefusedError _ eq_refl) eq_refl).
  constructor; [by eexists | constructor].
Defined.

(** ** [getband] as a function to labels *)

Lemma band_of_hz_label (frequency : Z) : band_of_hz frequency ∈ band_labels.
Proof.
  unfold band_of_hz, band_labels.
  repeat match goal with
  | |- context [ if ?c then _ else _ ] => destruct c
  end;
  repeat first [apply list_elem_of_here | apply list_elem_of_further].
Qed.

(** [getband] returns one of its thirteen labels, unless [int(float(freq))]
    raises [OverflowError], which it then raises itself; it raises nothing
    else. *)
Theorem getband_labels (freq : pyval) :
  (∃ label, getband freq = Ok label ∧ label ∈ band_labels)
  ∨ (int_float freq = Raise OverflowError
     ∧ getband freq = Raise OverflowError).
Proof.
  unfold getband. destruct (int_float freq) as [i|e] eqn:Hint.
  - left. eexists. split; [reflexivity | apply band_of_hz_label].
  - unfold int_float in Hint.
    destruct (py_float freq) as [f|e'] eqn:Hf.
    + destruct f; try discriminate; injection Hint as <-.
      * by right.
      * by right.
      * left. eexists. split; [reflexivity | apply band_of_hz_label].
    + injection Hint as ->.
      apply py_float_raises in Hf as [-> | [-> | ->]].
      * left. eexists. split; [reflexivity | apply band_of_hz_label].
      * left. eexists. split; [reflexivity | apply band_of_hz_label].
      * by right.
Qed.

(** ** What [getrbn] stores, discards and raises *)

Lemma band_of_hz_inside (k : Z) :
  band_of_hz (k * 1000) ≠ "0" →
  ∃ r, r ∈ band_table ∧ r.2 = band_of_hz (k * 1000) ∧ inside k r.
Proof.
  rewrite band_of_hz_khz.
  destruct (find _ band_table) as [[[lo hi] l]|] eqn:Hfind; [|done].
  intros _. apply find_some in Hfind as [Hin Htest].
  exists (lo, hi, l). split; [by apply list_elem_of_In|].
  split; [done|]. by apply (inside_test k (lo, hi, l)).
Qed.

(** With "0" off the allow-list, whatever [getrbn] hands to [add_spot]
    comes from a line in mode "CW" of a trusted spotter, has a finite
    frequency strictly inside the band range whose label is on the
    allow-list, and, when out-of-band display is off, strictly inside a
    general sub-band. *)
Theorem getrbn_entry_stored (cfg : settings) (parsed : rbn_match)
    (callsign : string) (freq : pyfloat) (band : string) :
  "0" ∉ LIMIT_BANDS cfg →
  getrbn_entry cfg parsed = Ok (AddSpot callsign freq band) →
  rbn_mode parsed = "CW"
  ∧ rbn_spotter parsed ∈ localspotters cfg
  ∧ callsign = rbn_callsign parsed
  ∧ band ∈ LIMIT_BANDS cfg
  ∧ ∃ q r,
      freq = Fin q ∧ py_float (PyStr (rbn_freq parsed)) = Ok (Fin q)
      ∧ r ∈ band_table ∧ r.2 = band ∧ inside (Qtrunc q) r
      ∧ (SHOW_OUT_OF_BAND cfg = false →
         ∃ lo hi, (lo, hi) ∈ general_table
                  ∧ (inject_Z lo < q ∧ q < inject_Z hi)%Q).
Proof.
  intros Hzero. unfold getrbn_entry.
  destruct (String.eqb_spec (rbn_mode parsed) "CW") as [Hmode|]; [|done].
  cbn [negb]. case_bool_decide as Hspotter; [|done]. cbn [negb].
  destruct (py_float (PyStr (rbn_freq parsed))) as [f|] eqn:Hfreq; [|done].
  cbn [mbind result_bind bind].
  destruct (getband (PyFloat f)) as [label|] eqn:Hlabel; [|done].
  cbn [mbind result_bind bind].
  destruct (negb (inband f) && negb (SHOW_OUT_OF_BAND cfg)) eqn:Hout;
    [done|].
  case_bool_decide as Hband; [|done]. intros [= <- <- <-].
  split_and!; [done..|].
  assert (label ≠ "0") as Hne by (by intros ->).
  destruct f as [q| | |]; try discriminate.
  - rewrite getband_finite in Hlabel. injection Hlabel as <-.
    destruct (band_of_hz_inside _ Hne) as (r & Hr & Hl & Hin).
    exists q, r. split_and!; [done..|].
    intros Hshow. rewrite Hshow, andb_true_r, negb_false_iff in Hout.
    by apply inband_general.
  - by injection Hlabel as <-.
Qed.

Lemma getrbn_entry_stored_witness :
  rbn_mode line_7030 = "CW"
  ∧ rbn_spotter line_7030 ∈ localspotters general_setup
  ∧ "K3LR" = rbn_callsign line_7030
  ∧ "40" ∈ LIMIT_BANDS general_setup
  ∧ ∃ q r,
      Fin 7030.1 = Fin q
      ∧ py_float (PyStr (rbn_freq line_7030)) = Ok (Fin q)
      ∧ r ∈ band_table ∧ r.2 = "40" ∧ inside (Qtrunc q) r
      ∧ (SHOW_OUT_OF_BAND general_setup = false →
         ∃ lo hi, (lo, hi) ∈ general_table
                  ∧ (inject_Z lo < q ∧ q < inject_Z hi)%Q).
Proof.
  apply (getrbn_entry_stored general_setup line_7030 "K3LR" (Fin 7030.1) "40").
  - unfold general_setup. simpl. rewrite !elem_of_cons, elem_of_nil.
    intros H. decompose [or] H; (discriminate || assumption).
  - vm_compute. reflexivity.
Defined.

(** A matched line makes [getrbn] raise exactly when it is in mode "CW",
    comes from a trusted spotter, and carries a frequency text that is no
    number ([ValueError]) or an infinite one ([OverflowError]).  The loop
    has no handler for either. *)
Theorem getrbn_entry_raises (cfg : settings) (parsed : rbn_match) (e : exn) :
  getrbn_entry cfg parsed = Raise e ↔
  rbn_mode parsed = "CW"
  ∧ rbn_spotter parsed ∈ localspotters cfg
  ∧ ((FloatText.parse (rbn_freq parsed) = None ∧ e = ValueError)
     ∨ ((FloatText.parse (rbn_freq parsed) = Some PosInf
         ∨ FloatText.parse (rbn_freq parsed) = Some NegInf)
        ∧ e = OverflowError)).
Proof.
  unfold getrbn_entry.
  destruct (String.eqb_spec (rbn_mode parsed) "CW") as [Hmode|Hmode];
    cbn [negb]; [|split; [done | by intros [? _]]].
  case_bool_decide as Hspotter; cbn [negb];
    [|split; [done | by intros (_ & ? & _)]].
  unfold py_float.
  destruct (FloatText.parse (rbn_freq parsed)) as [f|];
    cbn [mbind result_bind bind].
  - destruct f as [q| | |].
    + rewrite getband_finite. cbn [mbind result_bind bind].
      split.
      * destruct (_ && _); [done|]. by case_bool_decide.
      * intros (_ & _ & [[[=] _] | [[[=]|[=]] _]]).
    + change (getband (PyFloat PosInf)) with (@Raise string OverflowError).
      cbn [mbind result_bind bind].
      split; [intros [= <-]; split_and!; auto|].
      by intros (_ & _ & [[[=] _] | [_ ->]]).
    + change (getband (PyFloat NegInf)) with (@Raise string OverflowError).
      cbn [mbind result_bind bind].
      split; [intros [= <-]; split_and!; auto|].
      by intros (_ & _ & [[[=] _] | [_ ->]]).
    + change (getband (PyFloat NaN)) with (Ok (A:=string) "0").
      cbn [mbind result_bind bind]. split.
      * destruct (_ && _); [done|]. by case_bool_decide.
      * intros (_ & _ & [[[=] _] | [[[=]|[=]] _]]).
  - split; [intros [= <-]; split_and!; auto|].
    by intros (_ & _ & [[_ ->] | [[[=]|[=]] _]]).
Qed.

(** ** Witnesses for the decoder's lemmas *)

Lemma gridtolatlon_in_range_witness :
  ∃ lat lon,
    gridtolatlon "DM13at" = Ok (lat, lon)
    ∧ (-90 <= lat)%Q ∧ (lat <= 90)%Q ∧ (-180 <= lon)%Q ∧ (lon <= 180)%Q.
Proof.
  apply gridtolatlon_in_range; [reflexivity | simpl; lia].
Defined.

Lemma gridtolatlon_guard_witness :
  gridtolatlon "DM13AT00AA" = Ok (0%Q, 0%Q).
Proof.
  apply gridtolatlon_guard. right. split; [simpl; lia | reflexivity].
Defined.

(** ** Where [inband] and [getband] disagree *)

Lemma Qtrunc_between (q : Q) (k : Z) :
  0 <= k → (inject_Z k < q)%Q → (q < inject_Z (k + 1))%Q → Qtrunc q = k.
Proof.
  destruct q as [n d]. unfold Qlt, Qtrunc. simpl. intros Hk Hlo Hhi.
  apply Z.le_antisymm.
  - apply Z.lt_succ_r, Z.quot_lt_upper_bound; nia.
  - apply Z.quot_le_lower_bound; nia.
Qed.

(** A line in mode "CW" from a trusted spotter, less than 1 kHz above the
    lower edge of 160, 30, 17, 12, 10 or 6 m, is in the general portion
    for [inband] and unclassified for [getband]; with "0" off the
    allow-list it is discarded, whatever the out-of-band setting. *)
Theorem getrbn_entry_edge_discarded (cfg : settings) (parsed : rbn_match)
    (q : Q) (lo : Z) :
  rbn_mode parsed = "CW" →
  rbn_spotter parsed ∈ localspotters cfg →
  py_float (PyStr (rbn_freq parsed)) = Ok (Fin q) →
  lo ∈ shared_lower_edges →
  (inject_Z lo < q)%Q → (q < inject_Z (lo + 1))%Q →
  "0" ∉ LIMIT_BANDS cfg →
  inband (Fin q) = true
  ∧ getband (PyFloat (Fin q)) = Ok "0"
  ∧ getrbn_entry cfg parsed = Ok Discard.
Proof.
  intros Hmode Hspotter Hfreq Hedge Hlo Hhi Hzero.
  assert (0 <= lo ∧ ∃ hi, (lo, hi) ∈ general_table ∧ lo + 1 <= hi
          ∧ band_of_hz (lo * 1000) = "0") as (Hpos & hi & Hgen & Hhi' & Hband).
  { unfold shared_lower_edges in Hedge.
    rewrite !elem_of_cons, elem_of_nil in Hedge.
    unfold general_table.
    destruct Hedge as [->|[->|[->|[->|[->|[->|[]]]]]]];
      (split; [lia|]); eexists;
      (split; [repeat first [apply list_elem_of_here
                            | apply list_elem_of_further]|]);
      split; (lia || reflexivity). }
  assert (inband (Fin q) = true) as Hin.
  { apply inband_general. exists lo, hi. split; [done|]. split; [done|].
    eapply Qlt_le_trans; [exact Hhi|]. by rewrite <- Zle_Qle. }
  assert (getband (PyFloat (Fin q)) = Ok "0") as Hlabel.
  { by rewrite getband_finite, (Qtrunc_between q lo), Hband. }
  split_and!; [done..|].
  unfold getrbn_entry. rewrite Hmode, Hfreq. cbn [String.eqb negb].
  rewrite (bool_decide_eq_true_2 _ Hspotter). cbn [negb].
  cbn [mbind result_bind bind]. rewrite Hlabel, Hin.
  cbn [mbind result_bind bind negb andb].
  by rewrite (bool_decide_eq_false_2 _ Hzero).
Qed.

Lemma general_setup_no_zero : "0" ∉ LIMIT_BANDS general_setup.
Proof.
  unfold general_setup. simpl. rewrite !elem_of_cons, elem_of_nil.
  intros H. decompose [or] H; (discriminate || assumption).
Defined.

Lemma getrbn_entry_edge_discarded_witness :
  inband (Fin 28000.5) = true
  ∧ getband (PyFloat (Fin 28000.5)) = Ok "0"
  ∧ getrbn_entry general_setup line_28000_5 = Ok Discard.
Proof.
  apply (getrbn_entry_edge_discarded general_setup line_28000_5 28000.5 28000);
    [reflexivity | apply list_elem_of_here | reflexivity
    | unfold shared_lower_edges;
      repeat first [apply list_elem_of_here | apply list_elem_of_further]
    | reflexivity | reflexivity | exact general_setup_no_zero].
Defined.

(** On a whole number of kHz the two agree: what [inband] accepts,
    [getband] classifies into a band. *)
Theorem inband_whole_khz_classified (k : Z) :
  inband (of_Z k) = true →
  ∃ r, r ∈ band_table ∧ inside k r
       ∧ getband (PyFloat (of_Z k)) = Ok r.2 ∧ r.2 ≠ "0".
Proof.
  intros (lo & hi & Hgen & Hlo & Hhi)%inband_general.
  rewrite <- Zlt_Qlt in Hlo, Hhi.
  assert (band_of_hz (k * 1000) ≠ "0") as Hne.
  { rewrite band_of_hz_khz. unfold general_table in Hgen.
    rewrite !elem_of_cons, elem_of_nil in Hgen.
    unfold band_table, find.
    repeat (destruct Hgen as [[= -> ->] | Hgen];
      [repeat match goal with
       | |- context [ Z.ltb ?a ?b ] => destruct (Z.ltb_spec a b); try lia
       end; simpl; congruence|]).
    destruct Hgen. }
  destruct (band_of_hz_inside k Hne) as (r & Hr & Hl & Hin).
  exists r. split_and!; [done | done | | by rewrite Hl].
  unfold of_Z. rewrite getband_finite, (Qtrunc_whole _ k), Hl; [done|].
  reflexivity.
Qed.

Lemma inband_whole_khz_classified_witness :
  ∃ r, r ∈ band_table ∧ inside 7030 r
       ∧ getband (PyFloat (of_Z 7030)) = Ok r.2 ∧ r.2 ≠ "0".
Proof. apply inband_whole_khz_classified. reflexivity. Defined.

(** ** [gridtolatlon] reads its code without case and without blanks *)

Lemma list_ascii_of_string_app (a b : string) :
  list_ascii_of_string (a ++ b)
  = list_ascii_of_string a ++ list_ascii_of_string b.
Proof. induction a as [|c a IH]; [done|]. simpl. by rewrite IH. Qed.

Lemma is_space_upper (c : ascii) : Text.is_space (Text.upper c) = Text.is_space c.
Proof. destruct c as [[] [] [] [] [] [] [] []]; reflexivity. Qed.

Lemma upper_upper (c : ascii) : Text.upper (Text.upper c) = Text.upper c.
Proof. destruct c as [[] [] [] [] [] [] [] []]; reflexivity. Qed.

Lemma lstrip_upper (l : list ascii) :
  Text.lstrip (map Text.upper l) = map Text.upper (Text.lstrip l).
Proof.
  induction l as [|c l IH]; [done|]. simpl. rewrite is_space_upper.
  by destruct (Text.is_space c).
Qed.

Lemma strip_upper (l : list ascii) :
  Text.strip (map Text.upper l) = map Text.upper (Text.strip l).
Proof.
  unfold Text.strip. by rewrite lstrip_upper, <- map_rev, lstrip_upper, map_rev.
Qed.

Lemma lstrip_blanks (pre l : list ascii) :
  Forall (λ c, Text.is_space c = true) pre →
  Text.lstrip (pre ++ l) = Text.lstrip l.
Proof. induction 1 as [|c pre Hc _ IH]; [done|]. simpl. by rewrite Hc. Qed.

Lemma lstrip_app (l post : list ascii) :
  Forall (λ c, Text.is_space c = true) post →
  Text.lstrip (l ++ post) = Text.lstrip l ++
    match Text.lstrip l with [] => [] | _ => post end.
Proof.
  intros Hpost. induction l as [|c l IH].
  - simpl. rewrite <- (app_nil_r post) at 1.
    by rewrite lstrip_blanks.
  - simpl. destruct (Text.is_space c); [exact IH | done].
Qed.

Lemma strip_blanks (pre l post : list ascii) :
  Forall (λ c, Text.is_space c = true) pre →
  Forall (λ c, Text.is_space c = true) post →
  Text.strip (pre ++ l ++ post) = Text.strip l.
Proof.
  intros Hpre Hpost. unfold Text.strip.
  rewrite (lstrip_blanks pre _ Hpre), (lstrip_app l post Hpost).
  destruct (Text.lstrip l) as [|c rest] eqn:Hl; [done|].
  rewrite rev_app_distr, lstrip_blanks; [done|].
  apply Forall_forall. intros x Hx%list_elem_of_In%in_rev%list_elem_of_In.
  by eapply Forall_forall in Hpost.
Qed.

Lemma gridtolatlon_same_text (a b : string) :
  map Text.upper (Text.strip (list_ascii_of_string a))
  = map Text.upper (Text.strip (list_ascii_of_string b)) →
  gridtolatlon a = gridtolatlon b.
Proof. unfold gridtolatlon. cbv zeta. by intros ->. Qed.

(** [gridtolatlon] gives the same result for a code in upper case, lower
    case or mixed, and with blanks before and after it. *)
Theorem gridtolatlon_case_and_blanks (pre code post : string) :
  blank pre → blank post →
  gridtolatlon (pre ++ upper_text code ++ post) = gridtolatlon code.
Proof.
  intros Hpre Hpost. apply gridtolatlon_same_text.
  rewrite !list_ascii_of_string_app, (strip_blanks _ _ _ Hpre Hpost).
  unfold upper_text. rewrite list_ascii_of_string_of_list_ascii.
  rewrite strip_upper, map_map.
  apply map_ext. intros c. apply upper_upper.
Qed.

Lemma gridtolatlon_case_and_blanks_witness :
  gridtolatlon ("  " ++ upper_text "dm13at" ++ " ") = gridtolatlon "dm13at".
Proof.
  apply gridtolatlon_case_and_blanks; unfold blank; simpl;
    repeat constructor.
Defined.

(** ** The fourth pair of a code *)



(** ** The [-b] option *)

Lemma escape_no_blank (q c : ascii) :
  q = "'"%char ∨ q = Repr.dquote → c ≠ " "%char →
  Forall (λ x, Text.is_space x = false) (Repr.escape q c).
Proof.
  intros Hq Hc.
  assert (implb (negb (Ascii.eqb c " "%char))
            (forallb (λ x, negb (Text.is_space x)) (Repr.escape q c))
          = true) as Hall.
  { clear Hc.
    destruct Hq as [-> | ->];
      destruct c as [[] [] [] [] [] [] [] []]; vm_compute; reflexivity. }
  apply Ascii.eqb_neq in Hc. rewrite Hc in Hall. simpl in Hall.
  apply Forall_forall. intros x Hx.
  apply negb_true_iff.
  apply (proj1 (forallb_forall _ _) Hall), list_elem_of_In, Hx.
Qed.

Lemma of_str_no_blank (text : list ascii) :
  " "%char ∉ text →
  Forall (λ x, Text.is_space x = false) (Repr.of_str text).
Proof.
  intros Hblank. unfold Repr.of_str.
  assert (Repr.quote text = "'"%char ∨ Repr.quote text = Repr.dquote) as Hq.
  { unfold Repr.quote. destruct (_ && _); auto. }
  assert (Text.is_space (Repr.quote text) = false) as Hqs
    by (by destruct Hq as [-> | ->]).
  apply Forall_cons. split; [done|].
  apply Forall_app. split; [|by apply Forall_singleton].
  apply Forall_concat, Forall_fmap, Forall_forall. intros c Hc. simpl.
  apply escape_no_blank; [done|]. by intros ->.
Qed.

Lemma split_from_word (run word text : list ascii) :
  Forall (λ x, Text.is_space x = false) run →
  split_from word (run ++ text) = split_from (rev run ++ word) text.
Proof.
  intros Hrun. revert word.
  induction Hrun as [|c run Hc _ IH]; intros word; [done|].
  simpl. rewrite Hc, IH. by rewrite <- app_assoc.
Qed.

(** Each word of a list's [repr] ends in a comma or in the closing
    bracket. *)
Lemma split_join (items : list (list ascii)) (word : list ascii) :
  items ≠ [] →
  Forall (Forall (λ x, Text.is_space x = false)) items →
  Forall (λ token, ∃ init, token = init ++ [","%char]
                           ∨ token = init ++ ["]"%char])
         (split_from word (Repr.join items ++ ["]"%char])).
Proof.
  intros Hne Hitems. revert word.
  induction Hitems as [|item more Hitem Hmore IH]; [done|]. intros word.
  destruct more as [|next more].
  - cbn [Repr.join]. rewrite (split_from_word item) by done.
    cbn [split_from]. change (Text.is_space "]") with false. cbv iota.
    apply Forall_singleton. exists (rev word ++ item). right.
    cbn [rev]. by rewrite rev_app_distr, rev_involutive.
  - change (Repr.join (item :: next :: more))
      with (item ++ ","%char :: " "%char :: Repr.join (next :: more)).
    rewrite <- app_assoc, (split_from_word item) by done.
    rewrite <- !app_comm_cons. cbn [split_from].
    change (Text.is_space ",") with false.
    change (Text.is_space " ") with true. cbv iota.
    apply Forall_cons. split; [|by apply IH].
    exists (rev word ++ item). left.
    cbn [rev]. by rewrite rev_app_distr, rev_involutive.
Qed.

Lemma getband_Ok_label (freq : pyval) (label : string) :
  getband freq = Ok label → label ∈ band_labels.
Proof.
  unfold getband. destruct (try_except _ _ _) as [frequency|];
    cbn [mbind result_bind bind]; [|done].
  intros [= <-]. apply band_of_hz_label.
Qed.

Lemma getrbn_entry_band (cfg : settings) (parsed : rbn_match)
    (callsign : string) (freq : pyfloat) (band : string) :
  getrbn_entry cfg parsed = Ok (AddSpot callsign freq band) →
  getband (PyFloat freq) = Ok band ∧ band ∈ LIMIT_BANDS cfg.
Proof.
  unfold getrbn_entry.
  destruct (negb (String.eqb _ _)); [done|].
  destruct (negb (bool_decide _)); [done|].
  destruct (py_float _) as [f|]; [|done]. cbn [mbind result_bind bind].
  destruct (getband (PyFloat f)) as [label|] eqn:Hlabel; [|done].
  cbn [mbind result_bind bind].
  destruct (_ && _); [done|]. case_bool_decide; [|done].
  by intros [= _ <- <-].
Qed.

Lemma label_last_digit (label : string) :
  label ∈ band_labels →
  ∃ c, last (list_ascii_of_string label) = Some c
       ∧ c ≠ ","%char ∧ c ≠ "]"%char.
Proof.
  unfold band_labels. rewrite !elem_of_cons, elem_of_nil. intros H.
  repeat (destruct H as [-> | H]; [eexists; by split|]). destruct H.
Qed.

(** With [-b] given, and no space inside the bands named, the allow-list
    holds the words of the list's printed form, each ending in a comma or
    a bracket: no label of [getband] is on it, and the ingest loop stores
    no spot at all. *)
Theorem limit_bands_option_stores_nothing (bands : list string) :
  bands ≠ [] →
  Forall (λ band, " "%char ∉ list_ascii_of_string band) bands →
  (∀ freq label, getband freq = Ok label →
                 label ∉ limit_bands (Some bands))
  ∧ (∀ cfg parsed callsign freq band,
       LIMIT_BANDS cfg = limit_bands (Some bands) →
       getrbn_entry cfg parsed ≠ Ok (AddSpot callsign freq band)).
Proof.
  intros Hne Hbands.
  assert (∀ label, label ∈ band_labels → label ∉ limit_bands (Some bands))
    as Hnone.
  { intros label Hlabel Hin.
    destruct bands as [|band more]; [done|].
    unfold limit_bands, split, Repr.of_list in Hin.
    cbn [split_from] in Hin. change (Text.is_space "[") with false in Hin.
    cbv iota in Hin.
    apply list_elem_of_fmap in Hin as (token & -> & Htoken).
    eapply Forall_forall in Htoken; [|apply split_join].
    - destruct (label_last_digit _ Hlabel) as (c & Hlast & Hc1 & Hc2).
      rewrite list_ascii_of_string_of_list_ascii in Hlast.
      destruct Htoken as (init & [-> | ->]);
        rewrite last_snoc in Hlast; congruence.
    - done.
    - apply Forall_fmap. eapply Forall_impl; [exact Hbands|].
      intros item Hitem. simpl. by apply of_str_no_blank. }
  split.
  - intros freq label Hlabel. by apply Hnone, (getband_Ok_label freq).
  - intros cfg parsed callsign freq band Hcfg
      [Hlabel Hin]%getrbn_entry_band.
    rewrite Hcfg in Hin.
    exact (Hnone band (getband_Ok_label _ _ Hlabel) Hin).
Qed.

Lemma limit_bands_option_stores_nothing_witness :
  (∀ freq label, getband freq = Ok label →
                 label ∉ limit_bands (Some ["40"; "20"]))
  ∧ (∀ cfg parsed callsign freq band,
       LIMIT_BANDS cfg = limit_bands (Some ["40"; "20"]) →
       getrbn_entry cfg parsed ≠ Ok (AddSpot callsign freq band)).
Proof.
  apply limit_bands_option_stores_nothing; [discriminate|].
  repeat constructor; simpl; rewrite !elem_of_cons, elem_of_nil;
    intros H; decompose [or] H; (discriminate || assumption).
Defined.

(** ** [row_factory] *)

Lemma row_factory_from_spec {V} (idx : nat) (description : list string)
    (row : list V) (dict : gmap string V) :
  NoDup description → (idx + length description <= length row)%nat →
  ∃ dict',
    row_factory_from idx description row dict = Ok dict'
    ∧ (∀ i col, description !! i = Some col →
                dict' !! col = row !! (idx + i)%nat)
    ∧ (∀ col, col ∉ description → dict' !! col = dict !! col).
Proof.
  intros Hnodup. revert idx dict.
  induction Hnodup as [|col cols Hcol _ IH]; intros idx dict Hlen.
  - exists dict. split; [done|]. split; [intros i col [=] | done].
  - simpl in Hlen. cbn [row_factory_from].
    destruct (row !! idx) as [value|] eqn:Hvalue;
      [|apply lookup_ge_None in Hvalue; lia].
    destruct (IH (S idx) (<[col := value]> dict)) as (dict' & -> & Hin & Hout);
      [lia|].
    exists dict'. split; [done|]. split.
    + intros [|i] c Hc.
      * injection Hc as <-. rewrite Hout by done.
        by rewrite lookup_insert_eq, Nat.add_0_r.
      * rewrite (Hin i c Hc). f_equal. lia.
    + intros c [Hne Hc]%not_elem_of_cons.
      by rewrite Hout, lookup_insert_ne.
Qed.

(** When the column names differ from one another and the row has a value
    for each, the dictionary [row_factory] builds maps each column name to
    the row's value in that column and has no other key. *)
Theorem row_factory_lookup {V} (description : list string) (row : list V) :
  NoDup description → (length description <= length row)%nat →
  ∃ dict,
    row_factory description row = Ok dict
    ∧ (∀ i col, description !! i = Some col → dict !! col = row !! i)
    ∧ (∀ col, col ∉ description → dict !! col = None).
Proof.
  intros Hnodup Hlen.
  destruct (row_factory_from_spec 0 description row ∅ Hnodup Hlen)
    as (dict & Hrun & Hin & Hout).
  exists dict. split; [done|]. split; [done|].
  intros col Hcol. by rewrite Hout.
Qed.

Lemma row_factory_lookup_witness :
  ∃ dict,
    row_factory ["callsign"; "band"; "mode"] ["K3LR"; "40"; "CW"] = Ok dict
    ∧ (∀ i col, ["callsign"; "band"; "mode"] !! i = Some col →
                dict !! col = ["K3LR"; "40"; "CW"] !! i)
    ∧ (∀ col, col ∉ ["callsign"; "band"; "mode"] → dict !! col = None).
Proof.
  apply (row_factory_lookup ["callsign"; "band"; "mode"] ["K3LR"; "40"; "CW"]).
  - repeat (apply NoDup_cons_2;
            [rewrite ?elem_of_cons, elem_of_nil; intros H;
             intuition discriminate|]).
    apply NoDup_nil_2.
  - simpl. lia.
Defined.

Lemma row_factory_from_raises {V} (idx : nat) (description : list string)
    (row : list V) (dict : gmap string V) (e : exn) :
  (idx <= length row)%nat →
  row_factory_from idx description row dict = Raise e
  ↔ (length row - idx < length description)%nat ∧ e = IndexError.
Proof.
  revert idx dict.
  induction description as [|col cols IH]; intros idx dict Hidx.
  - simpl. split; [done | lia].
  - cbn [row_factory_from]. destruct (row !! idx) as [value|] eqn:Hvalue.
    + apply lookup_lt_Some in Hvalue.
      rewrite (IH (S idx)) by lia. simpl.
      split; intros [? ?]; split; (lia || done).
    + apply lookup_ge_None in Hvalue. simpl.
      split; [intros [= <-]; split; [lia | done] | by intros [_ ->]].
Qed.

(** [row_factory] raises exactly when the row is shorter than the
    description, and then [IndexError]. *)
Theorem row_factory_raises {V} (description : list string) (row : list V)
    (e : exn) :
  row_factory description row = Raise e
  ↔ (length row < length description)%nat ∧ e = IndexError.
Proof.
  unfold row_factory. rewrite row_factory_from_raises by lia.
  by rewrite Nat.sub_0_r.
Qed.

(** ** Frequency texts *)

Lemma digit_dot_facts (c : ascii) :
  FloatText.is_digit c = true ∨ c = "."%char →
  Text.is_space c = false ∧ Text.lower c = c
  ∧ Ascii.eqb c "_" = false ∧ Ascii.eqb c "+" = false
  ∧ Ascii.eqb c "-" = false ∧ Ascii.eqb c "e" = false
  ∧ Ascii.eqb c "i" = false ∧ Ascii.eqb c "n" = false.
Proof.
  intros Hc.
  assert (implb (FloatText.is_digit c || Ascii.eqb c ".")
            (negb (Text.is_space c) && Ascii.eqb (Text.lower c) c
             && negb (Ascii.eqb c "_") && negb (Ascii.eqb c "+")
             && negb (Ascii.eqb c "-") && negb (Ascii.eqb c "e")
             && negb (Ascii.eqb c "i") && negb (Ascii.eqb c "n"))
          = true) as Hall.
  { destruct c as [[] [] [] [] [] [] [] []]; vm_compute; reflexivity. }
  assert (FloatText.is_digit c || Ascii.eqb c "." = true) as Hdd.
  { destruct Hc as [-> | ->]; [done | by rewrite orb_true_r]. }
  rewrite Hdd in Hall. cbn [implb] in Hall.
  repeat (apply andb_prop in Hall as [Hall ?]).
  split_and!; try (by apply negb_true_iff); by apply Ascii.eqb_eq.
Qed.

Lemma lstrip_no_blank (text : list ascii) :
  Forall (λ c, Text.is_space c = false) text → Text.lstrip text = text.
Proof. destruct 1 as [|c text Hc _]; [done|]. simpl. by rewrite Hc. Qed.

Lemma strip_no_blank (text : list ascii) :
  Forall (λ c, Text.is_space c = false) text → Text.strip text = text.
Proof.
  intros Htext. unfold Text.strip. rewrite (lstrip_no_blank text) by done.
  rewrite lstrip_no_blank; [apply rev_involutive|].
  apply Forall_forall. intros x Hx%list_elem_of_In%in_rev%list_elem_of_In.
  by eapply Forall_forall in Htext.
Qed.

(** A text of digits and dots is a run of digits, then nothing or a dot
    and such a text again. *)
Lemma digits_and_dots_span (text : list ascii) :
  digits_and_dots text →
  ∃ run rest,
    text = run ++ rest ∧ Forall (λ c, FloatText.is_digit c = true) run
    ∧ (rest = [] ∨ ∃ rest', rest = "."%char :: rest' ∧ digits_and_dots rest').
Proof.
  induction 1 as [|c text Hc Htext (run & rest & -> & Hrun & Hrest)].
  - exists [], []. split_and!; auto.
  - destruct Hc as [Hc | ->].
    + exists (c :: run), rest. split_and!; auto.
    + exists [], ("."%char :: run ++ rest). split_and!; [done..|].
      right. by eexists.
Qed.

Lemma digits_rest_run (run rest : list ascii) (v : Z) (k : nat) :
  Forall (λ c, FloatText.is_digit c = true) run →
  (rest = [] ∨ ∃ rest', rest = "."%char :: rest') →
  ∃ v', FloatText.digits_rest v k (run ++ rest)
        = (v', (k + length run)%nat, rest).
Proof.
  intros Hrun Hrest. revert v k.
  induction Hrun as [|c run Hc _ IH]; intros v k.
  - exists v. rewrite Nat.add_0_r.
    by destruct Hrest as [-> | [rest' ->]].
  - cbn [app FloatText.digits_rest]. rewrite Hc.
    destruct (IH (10 * v + FloatText.digit c) (S k)) as [v' ->].
    exists v'. do 2 f_equal. simpl. lia.
Qed.

Lemma digitpart_run (run rest : list ascii) (v : Z) :
  Forall (λ c, FloatText.is_digit c = true) run →
  (rest = [] ∨ ∃ rest', rest = "."%char :: rest') →
  match run with
  | [] => FloatText.digitpart v (run ++ rest) = None
  | _ => ∃ v', FloatText.digitpart v (run ++ rest)
               = Some (v', length run, rest)
  end.
Proof.
  intros Hrun Hrest. destruct run as [|c run].
  - by destruct Hrest as [-> | [rest' ->]].
  - destruct (digits_rest_run (c :: run) rest v 0 Hrun Hrest) as [v' Hv'].
    exists v'. unfold FloatText.digitpart. cbn [app] in Hv' |- *.
    apply Forall_cons_1 in Hrun as [-> _]. by rewrite Hv'.
Qed.

Lemma dots_app (a b : list ascii) : dots (a ++ b) = (dots a + dots b)%nat.
Proof. unfold dots. by rewrite filter_app, length_app. Qed.

Lemma dots_dot (text : list ascii) : dots ("."%char :: text) = S (dots text).
Proof. unfold dots. by rewrite filter_cons_True. Qed.

Lemma dots_run (run : list ascii) :
  Forall (λ c, FloatText.is_digit c = true) run → dots run = 0%nat.
Proof.
  unfold dots. induction 1 as [|c run Hc _ IH]; [done|].
  rewrite filter_cons_False; [done|]. by intros ->.
Qed.

Lemma existsb_run (run : list ascii) :
  Forall (λ c, FloatText.is_digit c = true) run →
  existsb FloatText.is_digit run = match run with [] => false | _ => true end.
Proof. destruct 1 as [|c run Hc _]; [done|]. simpl. by rewrite Hc. Qed.

(** Such a text never spells [inf], [infinity] or [nan]. *)
Lemma digits_and_dots_no_name (text : list ascii) :
  digits_and_dots text →
  let word := string_of_list_ascii (map Text.lower text) in
  String.eqb word "inf" || String.eqb word "infinity" = false
  ∧ String.eqb word "nan" = false.
Proof.
  destruct 1 as [|c text Hc _]; [done|].
  destruct (digit_dot_facts c Hc) as (_ & Hlower & _ & _ & _ & _ & Hi & Hn).
  simpl. by rewrite Hlower, Hi, Hn.
Qed.

Lemma exponent_rest (rest : list ascii) :
  (rest = [] ∨ ∃ rest', rest = "."%char :: rest') →
  FloatText.exponent rest = Some (0, rest).
Proof. by intros [-> | [rest' ->]]. Qed.

(** The mantissa grammar on digits and dots: [float] reads a text with a
    digit and at most one dot, and no other. *)
Lemma absfloatvalue_digits_and_dots (text : list ascii) :
  digits_and_dots text →
  FloatText.absfloatvalue text = None
  ↔ existsb FloatText.is_digit text = false ∨ (2 <= dots text)%nat.
Proof.
  intros Htext. unfold FloatText.absfloatvalue.
  destruct (digits_and_dots_no_name text Htext) as [-> ->].
  destruct (digits_and_dots_span text Htext)
    as (run1 & rest1 & -> & Hrun1 & Hrest1).
  destruct Hrest1 as [-> | (rest1' & -> & Hrest1')].
  - pose proof (digitpart_run run1 [] 0 Hrun1 (or_introl eq_refl)) as Hpart.
    rewrite dots_app, existsb_app, (dots_run run1), (existsb_run run1)
      by done.
    unfold FloatText.number. destruct run1 as [|c run1].
    + simpl. split; auto.
    + destruct Hpart as [v' ->]. cbn [FloatText.exponent].
      split; [done|]. cbn. intros [|]; [done | lia].
  - destruct (digits_and_dots_span rest1' Hrest1')
      as (run2 & rest2 & -> & Hrun2 & Hrest2).
    assert (rest2 = [] ∨ ∃ rest', rest2 = "."%char :: rest') as Hdot
      by (destruct Hrest2 as [|(rest' & -> & _)]; eauto).
    pose proof (digitpart_run run1 ("."%char :: run2 ++ rest2) 0 Hrun1
                  (or_intror (ex_intro _ _ eq_refl))) as Hpart1.
    rewrite dots_app, dots_dot, dots_app, !existsb_app,
      (dots_run run1), (dots_run run2), (existsb_run run1) by done.
    cbn [existsb]. change (FloatText.is_digit ".") with false.
    rewrite existsb_app, (existsb_run run2) by done.
    unfold FloatText.number.
    destruct run1 as [|c1 run1].
    + rewrite Hpart1. cbn [app]. change (Ascii.eqb "." ".") with true.
      cbv iota.
      pose proof (digitpart_run run2 rest2 0 Hrun2 Hdot) as Hpart2.
      destruct run2 as [|c2 run2].
      * rewrite Hpart2. split; [intros _|done].
        destruct Hdot as [-> | [rest' ->]]; [by left|].
        right. rewrite dots_dot. lia.
      * destruct Hpart2 as [v' ->]. rewrite (exponent_rest rest2 Hdot).
        destruct Hdot as [-> | [rest' ->]].
        -- split; [done|]. cbn. intros [|]; [done | lia].
        -- split; [intros _|done]. right. rewrite dots_dot. lia.
    + destruct Hpart1 as [i ->]. change (Ascii.eqb "." ".") with true.
      cbv iota.
      pose proof (digitpart_run run2 rest2 i Hrun2 Hdot) as Hpart2.
      destruct run2 as [|c2 run2].
      * rewrite Hpart2. cbn [app]. rewrite (exponent_rest rest2 Hdot).
        destruct Hdot as [-> | [rest' ->]].
        -- split; [done|]. cbn. intros [|]; [done | lia].
        -- split; [intros _|done]. right. rewrite dots_dot. lia.
      * destruct Hpart2 as [v' ->]. rewrite (exponent_rest rest2 Hdot).
        destruct Hdot as [-> | [rest' ->]].
        -- split; [done|]. cbn. intros [|]; [done | lia].
        -- split; [intros _|done]. right. rewrite dots_dot. lia.
Qed.

Lemma sign_digits_and_dots (text : list ascii) :
  digits_and_dots text → FloatText.sign text = (false, text).
Proof.
  destruct 1 as [|c text Hc _]; [done|].
  destruct (digit_dot_facts c Hc) as (_ & _ & _ & Hplus & Hminus & _).
  simpl. by rewrite Hplus, Hminus.
Qed.

Lemma parse_digits_and_dots (text : string) :
  digits_and_dots (list_ascii_of_string text) →
  FloatText.parse text = None
  ↔ existsb FloatText.is_digit (list_ascii_of_string text) = false
    ∨ (2 <= dots (list_ascii_of_string text))%nat.
Proof.
  intros Htext. unfold FloatText.parse.
  rewrite strip_no_blank, (sign_digits_and_dots _ Htext).
  - rewrite <- (absfloatvalue_digits_and_dots _ Htext).
    by destruct (FloatText.absfloatvalue _).
  - eapply Forall_impl; [exact Htext|].
    intros c Hc. by destruct (digit_dot_facts c Hc).
Qed.

(** A line in mode CW from a trusted spotter whose frequency group holds
    ASCII digits and dots makes the ingest loop raise [ValueError] exactly
    when the group has no digit (it may be empty) or more than one dot. *)
Theorem getrbn_entry_frequency_text (cfg : settings) (parsed : rbn_match) :
  rbn_mode parsed = "CW" →
  rbn_spotter parsed ∈ localspotters cfg →
  digits_and_dots (list_ascii_of_string (rbn_freq parsed)) →
  getrbn_entry cfg parsed = Raise ValueError
  ↔ existsb FloatText.is_digit (list_ascii_of_string (rbn_freq parsed))
    = false
    ∨ (2 <= dots (list_ascii_of_string (rbn_freq parsed)))%nat.
Proof.
  intros Hmode Hspotter Htext.
  rewrite <- (parse_digits_and_dots _ Htext).
  unfold getrbn_entry. rewrite Hmode, bool_decide_true by done.
  cbn [String.eqb Ascii.eqb Bool.eqb negb andb]. unfold py_float.
  destruct (FloatText.parse (rbn_freq parsed)) as [f|];
    cbn [mbind result_bind bind]; [|done].
  destruct (getband_raises_only_overflow (PyFloat f)) as [[label ->] | ->];
    cbn [mbind result_bind bind]; [|done].
  destruct (_ && _); [done|]. by case_bool_decide.
Qed.

Lemma getrbn_entry_frequency_text_witness :
  getrbn_entry general_setup line_two_dots = Raise ValueError
  ↔ existsb FloatText.is_digit
      (list_ascii_of_string (rbn_freq line_two_dots)) = false
    ∨ (2 <= dots (list_ascii_of_string (rbn_freq line_two_dots)))%nat.
Proof.
  apply (getrbn_entry_frequency_text general_setup line_two_dots).
  - reflexivity.
  - unfold general_setup. simpl. rewrite elem_of_cons. by left.
  - unfold digits_and_dots. simpl.
    repeat constructor; (by left) || (by right).
Defined.
